(** * Gridfinity bin generator: the layout and the modelling pipeline

    A shallow embedding of [gridfinity.py].

    - Python [int] is [Z].  Python [float] is modelled by the exact rational
      it denotes ([Q]): the arithmetic of the source is read as arithmetic
      on rationals, and [round(x, 2)] as rounding to the nearest multiple of
      1/100, ties to the even one.  Binary rounding error of the machine
      representation is outside this reading.  The two loops of
      [draw_buckets] are given a second time over an [arithmetic] whose
      operations round as they like; what is proved there (the formula of
      the widths and of the row height, the divisions by zero) holds of
      the floats of the machine too, and [layout] is its exact instance.
    - An exception is a [Raises] outcome; [warnings.warn] appends to the
      list of warnings carried by a [Returns] outcome.
    - CadQuery is an external library.  A [Sketch] or a [Workplane] is
      represented by the chain of CadQuery calls that built it, in call
      order, with the arguments the source passes.

    The file has the embedding first ([Properties], the layout loops of
    [draw_buckets], the stages, [make_box], the export functions), then
    the vocabulary of the statements, then the proofs: the loops against a
    closed form of the layout, the widths of a row against the width of
    the box, placement and order, the warning, construction, the optional
    stages, the layout on any configuration, the export, and the layout
    in any arithmetic. *)

From Stdlib Require Import QArith ZArith List String Bool Lia Lqa.
From Stdlib Require Import Qround Qabs Sorted.
Import ListNotations.

Open Scope Q_scope.

(** ** Outcomes: exceptions and warnings *)

Inductive Exception : Type :=
| InvalidPropertyError
| IncorrectNumberOfRowsError
| ZeroDivisionError
| ValueError.

Inductive Warning : Type :=
| SmallDimensionsWarning
| CannotDrawLabelLedgesWarning.

Inductive outcome (A : Type) : Type :=
| Returns (value : A) (warned : list Warning)
| Raises (e : Exception).

Arguments Returns {A} value warned.
Arguments Raises {A} e.

Definition ret {A} (a : A) : outcome A := Returns a [].

Definition bind {A B} (c : outcome A) (k : A -> outcome B) : outcome B :=
  match c with
  | Raises e => Raises e
  | Returns a w =>
      match k a with
      | Raises e => Raises e
      | Returns b w' => Returns b (w ++ w')
      end
  end.

Definition raise {A} (e : Exception) : outcome A := Raises e.

Definition warn (category : Warning) : outcome unit := Returns tt [category].

Declare Scope py_scope.
Delimit Scope py_scope with py.
Notation "x <- c ;; k" := (bind c (fun x => k))
  (at level 61, c at next level, right associativity) : py_scope.
Notation "c ;; k" := (bind c (fun _ => k))
  (at level 61, right associativity) : py_scope.
Open Scope py_scope.

(** ** Python arithmetic *)

Definition Qltb (x y : Q) : bool := negb (Qle_bool y x).

(** [a / b]: true division, [ZeroDivisionError] on a zero divisor. *)
Definition truediv (a b : Q) : outcome Q :=
  if Qeq_bool b 0 then raise ZeroDivisionError else ret (a / b).

(** [sum(row)] *)
Definition sum (row : list Q) : Q := fold_left Qplus row 0.

(** [len(row)] *)
Definition len {A} (l : list A) : Z := Z.of_nat (List.length l).

(** Nearest integer, ties to even. *)
Definition round_half_even (x : Q) : Z :=
  let f := Qfloor x in
  let r := x - inject_Z f in
  if Qltb r (1 # 2) then f
  else if Qltb (1 # 2) r then (f + 1)%Z
  else if Z.even f then f else (f + 1)%Z.

(** [round(x, 2)] *)
Definition round2 (x : Q) : Q := inject_Z (round_half_even (x * 100)) / 100.

(** [min(a, b)]: the first argument unless the second is smaller. *)
Definition min (a b : Q) : Q := if Qltb b a then b else a.

(** [math.floor] *)
Definition floor (x : Q) : Z := Qfloor x.

(** ** Properties *)

(** An entry of [divisions]: [Union[List[float], int]]. *)
Inductive Row : Type :=
| row_int (n : Z)
| row_list (ratios : list Q).

Record Properties : Type := {
  units_wide : Z;
  units_long : Z;
  units_high : Z;
  divisions : list Row;
  draw_finger_scoop : bool;
  draw_label_ledge : bool;
  make_magnet_hole : bool;
  make_screw_hole : bool
}.

Definition height (self : Properties) : Q := inject_Z (units_high self * 7) - 5.6.
Definition length (self : Properties) : Q := inject_Z (units_long self * 42).
Definition width (self : Properties) : Q := inject_Z (units_wide self * 42).

Definition post_init (self : Properties) : outcome unit :=
  if ((units_wide self <? 1) || (units_long self <? 1))%Z then
    raise InvalidPropertyError
  else if (units_high self <? 2)%Z then
    raise InvalidPropertyError
  else if negb (len (divisions self) =? units_long self)%Z then
    raise IncorrectNumberOfRowsError
  else ret tt.

(** The dataclass constructor: the generated [__init__] stores the fields
    and then runs [__post_init__]. *)
Definition new_Properties (units_wide units_long units_high : Z)
    (divisions : list Row)
    (draw_finger_scoop draw_label_ledge make_magnet_hole make_screw_hole : bool)
    : outcome Properties :=
  let self := {| units_wide := units_wide; units_long := units_long;
                 units_high := units_high; divisions := divisions;
                 draw_finger_scoop := draw_finger_scoop;
                 draw_label_ledge := draw_label_ledge;
                 make_magnet_hole := make_magnet_hole;
                 make_screw_hole := make_screw_hole |} in
  post_init self ;;
  ret self.

(** ** CadQuery objects, as chains of calls *)

(** [Vector(x, y)] has a zero third component. *)
Definition Vector : Type := (Q * Q * Q)%type.
Definition Vector2 (x y : Q) : Vector := (x, y, 0).

Inductive sketch_call : Type :=
| S_rect (w h : Q) (mode : string) (tag : option string)
| S_circle (r : Q) (mode : string)
| S_segment (p1 p2 : Q * Q)
| S_segment_to (p2 : Q * Q)
| S_close
| S_assemble
| S_vertices (selector : option string) (tag : option string)
| S_edges
| S_fillet (d : Q)
| S_moved (loc : Vector).

(** [cq.Sketch()] is the empty chain. *)
Definition Sketch : Type := list sketch_call.

Notation "x '|>' f" := (f x) (at level 45, left associativity, only parsing).

Definition s_call (c : sketch_call) (self : Sketch) : Sketch := self ++ [c].
Definition s_rect (w h : Q) := s_call (S_rect w h "a" None).
Definition s_rect_as (w h : Q) (mode : string) (tag : option string) :=
  s_call (S_rect w h mode tag).
Definition s_circle (r : Q) (mode : string) := s_call (S_circle r mode).
Definition s_segment (p1 p2 : Q * Q) := s_call (S_segment p1 p2).
Definition s_segment_to (p2 : Q * Q) := s_call (S_segment_to p2).
Definition s_close := s_call S_close.
Definition s_assemble := s_call S_assemble.
Definition s_vertices := s_call (S_vertices None None).
Definition s_vertices_sel (selector : string) :=
  s_call (S_vertices (Some selector) None).
Definition s_vertices_tag (tag : string) :=
  s_call (S_vertices None (Some tag)).
Definition s_edges := s_call S_edges.
Definition s_fillet (d : Q) := s_call (S_fillet d).
Definition s_moved (loc : Vector) := s_call (S_moved loc).

(** ** The layout loop of [draw_buckets] *)

Definition BOTTOM_THICKNESS : Q := 2.
Definition small_drawer_width : Q := 15.

(** The local variables the two loops of [draw_buckets] update. *)
Record loop_state : Type := {
  is_drawer_too_small : bool;
  sketches : list Sketch;
  x_origin : Q;
  y_origin : Q
}.

(** [if isinstance(row, int): row = [1] * row] *)
Definition normalize (row : Row) : list Q :=
  match row with
  | row_int n => repeat 1 (Z.to_nat n)
  | row_list ratios => ratios
  end.

(** [[round(ratio / sum(row) * (prop.width - (len(row) + 1)), 2)
      for ratio in row]] *)
Fixpoint widths_from (prop : Properties) (row : list Q) (ratios : list Q)
    : outcome (list Q) :=
  match ratios with
  | [] => ret []
  | ratio :: rest =>
      share <- truediv ratio (sum row) ;;
      let width_ := round2 (share * (width prop - inject_Z (len row + 1))) in
      widths <- widths_from prop row rest ;;
      ret (width_ :: widths)
  end.

Definition row_widths (prop : Properties) (row : list Q) : outcome (list Q) :=
  widths_from prop row row.

(** The sketch of one drawer. *)
Definition drawer_sketch (prop : Properties) (width_ height_ x y : Q) : Sketch :=
  []
  |> s_rect width_ height_
  |> s_vertices
  |> s_fillet 3
  |> s_edges
  |> s_moved (Vector2 (width_ / 2) (- height_ / 2))
  |> s_moved (Vector2 (- width prop / 2 + x) (length prop / 2 - y)).

(** [for width in widths: ...] *)
Fixpoint for_width (prop : Properties) (height_ : Q) (widths : list Q)
    (st : loop_state) : loop_state :=
  match widths with
  | [] => st
  | width_ :: rest =>
      let too_small :=
        if Qltb width_ small_drawer_width then true
        else is_drawer_too_small st in
      let sketch := drawer_sketch prop width_ height_ (x_origin st) (y_origin st) in
      for_width prop height_ rest
        {| is_drawer_too_small := too_small;
           sketches := sketches st ++ [sketch];
           x_origin := x_origin st + width_ + 1;
           y_origin := y_origin st |}
  end.

(** [for row in prop.divisions: ...] *)
Fixpoint for_row (prop : Properties) (rows : list Row) (st : loop_state)
    : outcome loop_state :=
  match rows with
  | [] => ret st
  | row :: rest =>
      let row := normalize row in
      widths <- row_widths prop row ;;
      height_ <- truediv (length prop - inject_Z (units_long prop + 1))
                         (inject_Z (units_long prop)) ;;
      let st := for_width prop height_ widths st in
      for_row prop rest
        {| is_drawer_too_small := is_drawer_too_small st;
           sketches := sketches st;
           x_origin := 1;
           y_origin := y_origin st + height_ + 1 |}
  end.

Definition initial_state : loop_state :=
  {| is_drawer_too_small := false; sketches := [];
     x_origin := 1; y_origin := 1 |}.

(** The first half of [draw_buckets]: the two loops, then the warning.
    It returns the list [sketches]. *)
Definition layout (prop : Properties) : outcome (list Sketch) :=
  st <- for_row prop (divisions prop) initial_state ;;
  (if is_drawer_too_small st then warn SmallDimensionsWarning else ret tt) ;;
  ret (sketches st).

(** ** Workplanes *)

(** The [combine] argument of [extrude] and [loft]. *)
Inductive combine_mode : Type :=
| combine_True
| combine_cut
| combine_s.

#[local] Unset Elimination Schemes.
Inductive cq_call : Type :=
| W_box (length_ width_ height_ : Q) (centered : bool * bool * bool)
| W_edges (selector : string)
| W_faces (selector : string)
| W_faces_AreaNth (n : Z)
| W_vertices
| W_fillet (radius : Q)
| W_chamfer (length_ : Q)
| W_rarray (xSpacing ySpacing : Q) (xCount yCount : Z)
| W_eachpoint_located (callback : list cq_call)
| W_workplane (offset : Q) (centerOption : string)
| W_workplaneFromTagged (name : string)
| W_copyWorkplane (obj : list cq_call)
| W_transformed (offset : Q * Q)
| W_tag (name : string)
| W_placeSketch (sketches_ : list Sketch)
| W_extrude (until : Q) (combine : combine_mode)
| W_loft (ruled : bool) (combine : combine_mode)
| W_union (toUnion : list cq_call)
| W_rect (xLen yLen : Q) (forConstruction : bool)
| W_cboreHole (diameter cboreDiameter cboreDepth depth : Q)
| W_hole (diameter depth : Q)
| W_sketch_finalize (s : Sketch)
| W_cutThruAll.
#[local] Set Elimination Schemes.

(** A workplane is the chain of calls made on it and the [zDir] of its
    [plane].  [plane_zDir] is [Some v] where the source fixes the normal:
    [cq.Workplane()] is the XY plane, normal [(0, 0, 1)], and an assignment
    to [plane.zDir] stores its right-hand side.  It is [None] once CadQuery
    has derived the plane from geometry the model does not interpret
    ([workplane], [transformed], [workplaneFromTagged]); every other call
    hands the plane on to its result. *)
Record Workplane : Type := {
  calls : list cq_call;
  plane_zDir : option Vector
}.

(** [cq.Workplane()] *)
Definition new_Workplane : Workplane :=
  {| calls := []; plane_zDir := Some (0, 0, 1) |}.

Definition w_call (c : cq_call) (self : Workplane) : Workplane :=
  {| calls := calls self ++ [c]; plane_zDir := plane_zDir self |}.

Definition w_replane (c : cq_call) (self : Workplane) : Workplane :=
  {| calls := calls self ++ [c]; plane_zDir := None |}.

Definition box (l w h : Q) (centered : bool * bool * bool) :=
  w_call (W_box l w h centered).
Definition edges (selector : string) := w_call (W_edges selector).
Definition faces (selector : string) := w_call (W_faces selector).
Definition faces_AreaNthSelector (n : Z) := w_call (W_faces_AreaNth n).
Definition vertices := w_call W_vertices.
Definition fillet (radius : Q) := w_call (W_fillet radius).
Definition chamfer (l : Q) := w_call (W_chamfer l).
Definition rarray (xs ys : Q) (xCount yCount : Z) :=
  w_call (W_rarray xs ys xCount yCount).
Definition eachpoint_located (callback : Workplane) :=
  w_call (W_eachpoint_located (calls callback)).
Definition workplane (offset : Q) (centerOption : string) :=
  w_replane (W_workplane offset centerOption).
(** [self.workplaneFromTagged(name)]: CadQuery looks [name] up among the
    tags set along the chain (the last [tag(name)] wins, [ValueError] when
    there is none) and returns a workplane with an empty stack that copies
    the plane of the tagged workplane; it is represented by the chain up
    to the tag, followed by the copy. *)
Fixpoint getTagged_from (name : string) (seen rest : list cq_call)
    (found : option (list cq_call)) : option (list cq_call) :=
  match rest with
  | [] => found
  | c :: rest' =>
      let here := seen ++ [c] in
      getTagged_from name here rest'
        match c with
        | W_tag n => if String.eqb n name then Some here else found
        | _ => found
        end
  end.

Definition getTagged (name : string) (self : list cq_call)
    : option (list cq_call) :=
  getTagged_from name [] self None.

Definition workplaneFromTagged (name : string) (self : Workplane)
    : outcome Workplane :=
  match getTagged name (calls self) with
  | None => raise ValueError
  | Some tagged =>
      ret {| calls := tagged ++ [W_workplaneFromTagged name];
             plane_zDir := None |}
  end.
Definition copyWorkplane (obj : Workplane) (self : Workplane) : Workplane :=
  {| calls := calls self ++ [W_copyWorkplane (calls obj)];
     plane_zDir := plane_zDir obj |}.
Definition transformed (offset : Q * Q) := w_replane (W_transformed offset).
Definition tag (name : string) := w_call (W_tag name).
Definition placeSketch (sks : list Sketch) := w_call (W_placeSketch sks).
Definition extrude (until : Q) (combine : combine_mode) :=
  w_call (W_extrude until combine).
Definition loft (ruled : bool) (combine : combine_mode) :=
  w_call (W_loft ruled combine).
Definition union (toUnion : Workplane) := w_call (W_union (calls toUnion)).
Definition rect (xLen yLen : Q) (forConstruction : bool) :=
  w_call (W_rect xLen yLen forConstruction).
Definition cboreHole (d cd cdepth depth : Q) :=
  w_call (W_cboreHole d cd cdepth depth).
Definition hole (d depth : Q) := w_call (W_hole d depth).
Definition sketch_finalize (s : Sketch) := w_call (W_sketch_finalize s).
Definition cutThruAll := w_call W_cutThruAll.

(** [self.plane.zDir = v] *)
Definition set_plane_zDir (v : Vector) (self : Workplane) : Workplane :=
  {| calls := calls self; plane_zDir := Some v |}.

(** [range(0, n)] *)
Definition range (n : Z) : list Z := map Z.of_nat (seq 0 (Z.to_nat n)).

(** ** The stages of the pipeline *)

Definition drawBase (self : Workplane) : Workplane :=
  self
  |> box 37.2 37.2 2.6 (true, true, false)
  |> edges "|Z" |> fillet 1.6
  |> faces "<Z" |> chamfer 0.8
  |> faces ">Z"
  |> box 42 42 2.4 (true, true, false)
  |> edges "|Z and (>Y or <Y)" |> fillet 4
  |> faces ">>Z[-2]" |> edges "<Z" |> chamfer 2.39999999.

Definition drawBases (self : Workplane) (prop : Properties) : Workplane :=
  self
  |> rarray 42 42 (units_wide prop) (units_long prop)
  |> eachpoint_located (new_Workplane |> drawBase).

Definition drawBuckets (self : Workplane) (prop : Properties)
    : outcome Workplane :=
  sketches <- layout prop ;;
  ret (self
       |> faces "<Z[0]" |> workplane 0 "CenterOfBoundBox" |> tag "base"
       |> box (width prop) (length prop) (height prop) (true, true, false)
       |> edges "|Z" |> fillet 4
       |> faces ">Z"
       |> workplane 0 "ProjectedOrigin"
       |> placeSketch sketches
       |> extrude (BOTTOM_THICKNESS - height prop) combine_cut).

Definition drawMate (self : Workplane) (prop : Properties)
    : outcome Workplane :=
  let width_ := width prop - 0.5 in
  let length_ := length prop - 0.5 in
  let outer_fillet := 3.75 in
  let s1 : Sketch :=
    [] |> s_rect width_ length_
       |> s_vertices |> s_fillet outer_fillet in
  let s2 : Sketch :=
    [] |> s_rect (width_ - 1.9 * 2) (length_ - 1.9 * 2)
       |> s_vertices |> s_fillet (outer_fillet - 1.9) in
  let s3 : Sketch :=
    [] |> s_rect (width_ - 2.6 * 2) (length_ - 2.6 * 2)
       |> s_vertices |> s_fillet (outer_fillet - 2.6) in
  let s4 : Sketch :=
    [] |> s_rect (width_ - 1 * 2) (length_ - 1 * 2)
       |> s_vertices |> s_fillet (outer_fillet - 1) in
  base <- workplaneFromTagged "base" self ;;
  let top :=
    new_Workplane
    |> copyWorkplane
         (base |> workplane (height prop - 2.84) "ProjectedOrigin")
    |> box width_ length_ 7.24 (true, true, false)
    |> edges "|Z" |> fillet outer_fillet
    |> faces ">Z"
    |> placeSketch
         [ s1;
           s2 |> s_moved (0, 0, - 1.9);
           s2 |> s_moved (0, 0, - 3.7);
           s3 |> s_moved (0, 0, - 4.4);
           s3 |> s_moved (0, 0, - 5.6);
           s4 |> s_moved (0, 0, - 7.24) ]
    |> loft true combine_s in
  ret (self |> union top).

Definition drawFrontSurface (self : Workplane) (prop : Properties)
    : Workplane :=
  self
  |> faces ">Z[3]"
  |> workplane 0 "ProjectedOrigin"
  |> transformed (0, - length prop / 2 + 1)
  |> box (width prop) 1.85 (height prop - 2) (true, false, false).

Definition drawFingerScoops (self : Workplane) (prop : Properties)
    : outcome Workplane :=
  if negb (draw_finger_scoop prop) then ret self
  else
    bucket_length <- truediv (length prop - inject_Z (units_long prop + 1))
                             (inject_Z (units_long prop)) ;;
    let scoop_radius := min (height prop * 0.6) (bucket_length * 0.9) in
    let sketches :=
      map (fun i : Z =>
             []
             |> s_rect scoop_radius scoop_radius
             |> s_vertices_sel ">X and >Y"
             |> s_circle scoop_radius "s"
             |> s_moved (Vector2
                  (scoop_radius / 2
                   - 0.5 * bucket_length * inject_Z (units_long prop)
                   - inject_Z (floor (inject_Z (units_long prop) / 2))
                   + (if (units_long prop mod 2 =? 0)%Z then 0.5 else 0))
                  (scoop_radius / 2
                   - (height prop - BOTTOM_THICKNESS) / 2))
             |> s_moved (Vector2
                  (inject_Z i * (bucket_length + 1)
                   + (if (i =? 0)%Z then 1.6 else 0))
                  0))
          (range (units_long prop)) in
    ret (self
         |> faces ">X[1]"
         |> workplane 0 "CenterOfBoundBox"
         |> placeSketch sketches
         |> extrude (width prop - 1) combine_True).

Definition drawLabelLedge (self : Workplane) (prop : Properties)
    : outcome Workplane :=
  if negb (draw_label_ledge prop) then ret self
  else
    bucket_length <- truediv (length prop - inject_Z (units_long prop + 1))
                             (inject_Z (units_long prop)) ;;
    let ledge_length := 12 + 0.75 in
    if Qltb (height prop) (ledge_length + 0.5) then
      warn CannotDrawLabelLedgesWarning ;;
      ret self
    else
      let sketches :=
        map (fun i : Z =>
               let last_offset : Q :=
                 if (i =? units_long prop - 1)%Z then 3 else 0 in
               []
               |> s_segment (last_offset, 0) (- ledge_length, 0)
               |> s_segment_to (last_offset, - ledge_length - last_offset)
               |> s_close
               |> s_assemble
               |> s_vertices_sel "<X"
               |> s_fillet 0.6
               |> s_moved (Vector2
                    (- 0.5 - (0.5 * inject_Z (units_long prop) - 1)
                             * (bucket_length + 1))
                    ((height prop - BOTTOM_THICKNESS) / 2))
               |> s_moved (Vector2
                    (inject_Z i * (bucket_length + 1) - last_offset)
                    0))
            (range (units_long prop)) in
      ret (self
           |> faces ">X[1]"
           |> workplane 0 "CenterOfBoundBox"
           |> placeSketch sketches
           |> extrude (width prop - 1.5) combine_True).

Definition drawMagnetBoreHoles (self : Workplane) (prop : Properties)
    : Workplane :=
  let self := self |> set_plane_zDir (0, 0, -1) in
  if negb (make_magnet_hole prop || make_screw_hole prop) then self
  else
    let self :=
      self
      |> faces "<Z[-1]"
      |> faces_AreaNthSelector (-1)
      |> rect 26 26 true
      |> vertices in
    if make_screw_hole prop then self |> cboreHole 3 6.5 2.4 6
    else if make_magnet_hole prop then self |> hole 6.5 2.4
    else self.

Definition shaveOuterShell (self : Workplane) (prop : Properties)
    : Workplane :=
  self
  |> faces "<Z[-1]"
  |> faces_AreaNthSelector (-1)
  |> workplane 0 "CenterOfBoundBox"
  |> sketch_finalize
       ([] |> s_rect_as (width prop) (length prop) "a" (Some "outer"%string)
           |> s_rect_as (width prop - 0.5) (length prop - 0.5) "s"
                (Some "inner"%string)
           |> s_vertices_tag "outer"
           |> s_vertices_tag "inner" |> s_fillet 3.75)
  |> cutThruAll.

(** [make_box(prop)], with no [out_file]: the export layer is not called. *)
Definition make_box (prop : Properties) : outcome Workplane :=
  let box0 := drawBases new_Workplane prop in
  box1 <- drawBuckets box0 prop ;;
  let box2 := drawFrontSurface box1 prop in
  box3 <- drawFingerScoops box2 prop ;;
  box4 <- drawLabelLedge box3 prop ;;
  box5 <- drawMate box4 prop ;;
  let box6 := drawMagnetBoreHoles box5 prop in
  ret (shaveOuterShell box6 prop).

(** ** Reading a layout *)

(** The size passed to [rect] in a sketch. *)
Fixpoint rect_size (s : Sketch) : option (Q * Q) :=
  match s with
  | [] => None
  | S_rect w h _ _ :: _ => Some (w, h)
  | _ :: s' => rect_size s'
  end.

Definition sk_width (s : Sketch) : Q :=
  match rect_size s with Some (w, _) => w | None => 0 end.

Definition sk_height (s : Sketch) : Q :=
  match rect_size s with Some (_, h) => h | None => 0 end.

(** The centre of a sketch: the sum of its [moved] displacements. *)
Fixpoint displacement (s : Sketch) : Q * Q :=
  match s with
  | [] => (0, 0)
  | S_moved (x, y, _) :: s' =>
      let '(dx, dy) := displacement s' in (x + dx, y + dy)
  | _ :: s' => displacement s'
  end.

(** The edges of a drawer rectangle, in the coordinates of the top face
    (origin at the centre of the box, y pointing to the back). *)
Definition sk_x (s : Sketch) : Q := fst (displacement s) - sk_width s / 2.
Definition sk_right (s : Sketch) : Q := sk_x s + sk_width s.
Definition sk_top (s : Sketch) : Q := snd (displacement s) + sk_height s / 2.
Definition sk_bottom (s : Sketch) : Q := sk_top s - sk_height s.

(** The same, measured like [x_origin] and [y_origin]: from the left edge
    of the box rightwards, from its back edge frontwards. *)
Definition sk_x_origin (prop : Properties) (s : Sketch) : Q :=
  sk_x s + width prop / 2.
Definition sk_y_origin (prop : Properties) (s : Sketch) : Q :=
  length prop / 2 - sk_top s.

(** Two rectangles overlap when their interiors meet. *)
Definition overlap (a b : Sketch) : Prop :=
  sk_x a < sk_right b /\ sk_x b < sk_right a /\
  sk_bottom a < sk_top b /\ sk_bottom b < sk_top a.

(** [sketches] is flat; the drawers of a row are recovered by the number
    of drawers of each entry of [divisions]. *)
Fixpoint group {A} (sizes : list nat) (l : list A) : list (list A) :=
  match sizes with
  | [] => []
  | n :: sizes' => firstn n l :: group sizes' (skipn n l)
  end.

Definition drawer_count (row : Row) : nat := List.length (normalize row).

Definition drawers_by_row (prop : Properties) (sks : list Sketch)
    : list (list Sketch) :=
  group (map drawer_count (divisions prop)) sks.

(** The drawers of a row placed from [x] on, at height [y]. *)
Fixpoint placed_from (prop : Properties) (x y : Q) (drawers : list Sketch)
    : Prop :=
  match drawers with
  | [] => True
  | d :: ds =>
      sk_x_origin prop d == x /\ sk_y_origin prop d == y /\
      placed_from prop (x + sk_width d + 1) y ds
  end.

(** The rows placed from [y] on, each starting at the 1 mm margin. *)
Fixpoint rows_from (prop : Properties) (row_height y : Q)
    (rows : list (list Sketch)) : Prop :=
  match rows with
  | [] => True
  | r :: rs =>
      placed_from prop 1 y r /\
      rows_from prop row_height (y + row_height + 1) rs
  end.

(** The total of the drawer widths of a row and its gaps stays within
    [0.01 * drawer_count] of the width of the box. *)
Definition fills_width (prop : Properties) (drawers : list Sketch) : Prop :=
  Qabs (sum (map sk_width drawers) + inject_Z (len drawers + 1) - width prop)
  <= 0.01 * inject_Z (len drawers).

(** The layout in closed form, to compare the loops with: the width and
    the row height by the formulas of the specification, and the sketches
    of a row, then of all rows, by cumulative placement. *)
Definition spec_drawer_width (prop : Properties) (weights : list Q) (weight : Q)
    : Q :=
  round2 (weight / sum weights * (width prop - inject_Z (len weights + 1))).

Definition spec_row_height (prop : Properties) : Q :=
  (length prop - inject_Z (units_long prop + 1)) / inject_Z (units_long prop).

Definition spec_row_widths (prop : Properties) (row : Row) : list Q :=
  map (spec_drawer_width prop (normalize row)) (normalize row).

Fixpoint place (prop : Properties) (height_ x y : Q) (widths : list Q)
    : list Sketch :=
  match widths with
  | [] => []
  | w :: ws =>
      drawer_sketch prop w height_ x y :: place prop height_ (x + w + 1) y ws
  end.

Fixpoint place_rows (prop : Properties) (height_ y : Q) (rows : list (list Q))
    : list (list Sketch) :=
  match rows with
  | [] => []
  | ws :: rest =>
      place prop height_ 1 y ws :: place_rows prop height_ (y + height_ + 1) rest
  end.

Definition is_small (w : Q) : bool := Qltb w small_drawer_width.

(** The drawers of a row are in order when each starts to the right of
    the ones before it, and apart when no two of them overlap. *)
Definition x_increasing (drawers : list Sketch) : Prop :=
  StronglySorted (fun a b => sk_x a < sk_x b) drawers.

Definition non_overlapping (drawers : list Sketch) : Prop :=
  ForallOrdPairs (fun a b => ~ overlap a b) drawers.

(** A row fits when its gaps and margins leave a width that is not
    negative to share out. *)
Definition fits (prop : Properties) (row : Row) : Prop :=
  (len (normalize row) + 1 <= units_wide prop * 42)%Z.

(** ** Valid configurations *)

(** Every weight or count is positive (the invariant of the data model;
    [__post_init__] does not check it). *)
Definition positive_row (row : Row) : Prop :=
  match row with
  | row_int n => (0 < n)%Z
  | row_list ratios => Forall (fun ratio => 0 < ratio) ratios
  end.

Definition valid (prop : Properties) : Prop :=
  post_init prop = Returns tt [] /\ Forall positive_row (divisions prop).

(** ** Configurations used as examples *)

Definition mk (units_wide units_long units_high : Z) (divisions : list Row)
    (scoop ledge magnet screw : bool) : Properties :=
  {| units_wide := units_wide; units_long := units_long;
     units_high := units_high; divisions := divisions;
     draw_finger_scoop := scoop; draw_label_ledge := ledge;
     make_magnet_hole := magnet; make_screw_hole := screw |}.

(** The configuration of [generate.py]. *)
Definition p_generate : Properties :=
  mk 4 3 4 [row_list [1; 2; 1]; row_int 3; row_list [10; 90]]
     true true false false.

(** One row without drawers. *)
Definition p_empty_row : Properties :=
  mk 1 1 2 [row_list []] false false false false.

(** 10000 drawers in a box of 42 mm. *)
Definition p_crowded : Properties :=
  mk 1 1 2 [row_int 10000] false false false false.

(** Drawers of 15, 25 and 40 mm. *)
Definition p_fifteen : Properties :=
  mk 2 1 2 [row_list [3; 5; 8]] false false false false.

(** The smallest box, nothing enabled; the same with three units of
    height; the same with both kinds of hole. *)
Definition p_plain : Properties :=
  mk 1 1 2 [row_int 1] false false false false.

Definition p_ledge_low : Properties :=
  mk 1 1 2 [row_int 1] false true false false.

Definition p_ledge_high : Properties :=
  mk 1 1 3 [row_int 1] false true false false.

Definition p_both_holes : Properties :=
  mk 1 1 2 [row_int 1] false false true true.

(** ** Helpers of the statements *)

(** A configuration with its feature flags cleared. *)
Definition without_flags (prop : Properties) : Properties :=
  mk (units_wide prop) (units_long prop) (units_high prop) (divisions prop)
     false false false false.

(** A configuration with the two flags of the cutting stages replaced. *)
Definition with_cuts (prop : Properties) (scoop ledge : bool) : Properties :=
  mk (units_wide prop) (units_long prop) (units_high prop) (divisions prop)
     scoop ledge (make_magnet_hole prop) (make_screw_hole prop).

(** The last three stages of [make_box]. *)
Definition rim_holes_shell (b : Workplane) (prop : Properties) : outcome Workplane :=
  b5 <- drawMate b prop ;;
  ret (shaveOuterShell (drawMagnetBoreHoles b5 prop) prop).

(** A call that sets no tag. *)
Definition no_tag (c : cq_call) : Prop := forall n, c <> W_tag n.

(** ** Export *)

(** A value of the SVG options: a boolean, a number or a triple. *)
Inductive option_value : Type :=
| O_bool (b : bool)
| O_number (x : Q)
| O_triple (v : Vector).

(** A Python [dict] with string keys: its items in insertion order, each
    key once. *)
Definition dict : Type := list (string * option_value).

(** [d.get(k)] *)
Fixpoint dict_get (k : string) (d : dict) : option option_value :=
  match d with
  | [] => None
  | (k', v) :: d' => if String.eqb k' k then Some v else dict_get k d'
  end.

(** [d[k] = v]: an existing key keeps its place, a new one goes last. *)
Fixpoint dict_set (k : string) (v : option_value) (d : dict) : dict :=
  match d with
  | [] => [(k, v)]
  | (k', v') :: d' =>
      if String.eqb k' k then (k, v) :: d' else (k', v') :: dict_set k v d'
  end.

(** [d.update(other)] *)
Definition dict_update (d other : dict) : dict :=
  fold_left (fun d item => dict_set (fst item) (snd item) d) other d.

(** One call of [cq.exporters.export], which writes the file; the writer
    itself is CadQuery's. *)
Record export_call : Type := {
  e_box : Workplane;
  e_fname : option string;
  e_exportType : option string;
  e_tolerance : Q;
  e_angularTolerance : Q;
  e_opt : option dict
}.

(** [export_box]: the model it returns and the export it has made. *)
Definition export_box (box : Workplane) (out_file export_type : option string)
    (tolerance angular_tolerance : Q) (opt : option dict)
    : Workplane * list export_call :=
  (box,
   [{| e_box := box; e_fname := out_file; e_exportType := export_type;
       e_tolerance := tolerance; e_angularTolerance := angular_tolerance;
       e_opt := opt |}]).

(** The defaults of [export_svg]. *)
Definition svg_settings : dict :=
  [("showAxes"%string, O_bool false);
   ("marginLeft"%string, O_number 10);
   ("marginTop"%string, O_number 10);
   ("projectionDir"%string, O_triple (2.75, -2.6, 2));
   ("showHidden"%string, O_bool false);
   ("focus"%string, O_number 500)].

(** [export_svg]; [if opt:] holds for a dict with at least one item.
    [export_box] is called with its default tolerances. *)
Definition export_svg (box : Workplane) (out_file : option string)
    (opt : option dict) : Workplane * list export_call :=
  let settings := svg_settings in
  let settings :=
    match opt with
    | Some (item :: items) => dict_update settings (item :: items)
    | _ => settings
    end in
  let '(_, exported) :=
    export_box box out_file (Some "SVG"%string) 0.1 0.1 (Some settings) in
  (box, exported).

(** [if out_file:] holds for a string that is not empty. *)
Definition is_given (out_file : option string) : bool :=
  match out_file with
  | Some (String _ _) => true
  | _ => false
  end.

(** [make_box] with its export arguments: the pipeline of [make_box],
    then the export when [out_file] is given. *)
Definition make_box_to (prop : Properties) (out_file export_type : option string)
    (tolerance angular_tolerance : Q) (opt : option dict)
    : outcome (Workplane * list export_call) :=
  box <- make_box prop ;;
  if is_given out_file then
    let '(_, exported) :=
      export_box box out_file export_type tolerance angular_tolerance opt in
    ret (box, exported)
  else ret (box, []).

(** The items of an optional dict. *)
Definition items (opt : option dict) : dict :=
  match opt with Some d => d | None => [] end.

(** ** Rows the layout can and cannot divide *)

(** [sum(row)] is only evaluated for a row with at least one weight. *)
Definition summable (row : Row) : Prop :=
  normalize row = [] \/ ~ sum (normalize row) == 0.

Definition zero_sum_row (row : Row) : Prop :=
  normalize row <> [] /\ sum (normalize row) == 0.

(** Weights [[1, -1]]: they sum to zero. *)
Definition p_zero_sum : Properties :=
  mk 1 1 2 [row_list [1; -1]] false false false false.

(** A non-positive count, and a row narrower than 15 mm per drawer. *)
Definition p_no_drawers : Properties :=
  mk 1 2 2 [row_int (-3); row_int 3] false false false false.

(** ** The layout over any arithmetic *)

(** Python's [+], [-], [*], [/], [sum] and [round(., 2)], as functions on
    the values of the numbers.  The values of ints and of finite floats
    are rationals; how an operation rounds its result is left open, so
    what holds for every [arithmetic] holds for the floats of the machine
    as well as for exact rationals.  Comparison, the test for zero and the
    change of sign are exact in Python and are not part of it.  Overflow
    is outside the model: the operations are total. *)
Record arithmetic : Type := {
  plus : Q -> Q -> Q;
  minus : Q -> Q -> Q;
  times : Q -> Q -> Q;
  divide : Q -> Q -> Q;
  total : list Q -> Q;
  round_2 : Q -> Q
}.

(** The arithmetic of the definitions above. *)
Definition exact : arithmetic :=
  {| plus := Qplus; minus := Qminus; times := Qmult; divide := Qdiv;
     total := sum; round_2 := round2 |}.

(** [a / b] *)
Definition truediv_in (ar : arithmetic) (a b : Q) : outcome Q :=
  if Qeq_bool b 0 then raise ZeroDivisionError else ret (divide ar a b).

(** The list comprehension of the widths. *)
Fixpoint widths_from_in (ar : arithmetic) (prop : Properties)
    (row : list Q) (ratios : list Q) : outcome (list Q) :=
  match ratios with
  | [] => ret []
  | ratio :: rest =>
      share <- truediv_in ar ratio (total ar row) ;;
      let width_ :=
        round_2 ar
          (times ar share (minus ar (width prop) (inject_Z (len row + 1)))) in
      widths <- widths_from_in ar prop row rest ;;
      ret (width_ :: widths)
  end.

Definition row_widths_in (ar : arithmetic) (prop : Properties) (row : list Q)
    : outcome (list Q) :=
  widths_from_in ar prop row row.

Definition drawer_sketch_in (ar : arithmetic) (prop : Properties)
    (width_ height_ x y : Q) : Sketch :=
  []
  |> s_rect width_ height_
  |> s_vertices
  |> s_fillet 3
  |> s_edges
  |> s_moved (Vector2 (divide ar width_ 2) (divide ar (- height_) 2))
  |> s_moved (Vector2 (plus ar (divide ar (- width prop) 2) x)
                      (minus ar (divide ar (length prop) 2) y)).

Fixpoint for_width_in (ar : arithmetic) (prop : Properties) (height_ : Q)
    (widths : list Q) (st : loop_state) : loop_state :=
  match widths with
  | [] => st
  | width_ :: rest =>
      let too_small :=
        if Qltb width_ small_drawer_width then true
        else is_drawer_too_small st in
      let sketch :=
        drawer_sketch_in ar prop width_ height_ (x_origin st) (y_origin st) in
      for_width_in ar prop height_ rest
        {| is_drawer_too_small := too_small;
           sketches := sketches st ++ [sketch];
           x_origin := plus ar (plus ar (x_origin st) width_) 1;
           y_origin := y_origin st |}
  end.

Fixpoint for_row_in (ar : arithmetic) (prop : Properties) (rows : list Row)
    (st : loop_state) : outcome loop_state :=
  match rows with
  | [] => ret st
  | row :: rest =>
      let row := normalize row in
      widths <- row_widths_in ar prop row ;;
      height_ <- truediv_in ar
                   (minus ar (length prop) (inject_Z (units_long prop + 1)))
                   (inject_Z (units_long prop)) ;;
      let st := for_width_in ar prop height_ widths st in
      for_row_in ar prop rest
        {| is_drawer_too_small := is_drawer_too_small st;
           sketches := sketches st;
           x_origin := 1;
           y_origin := plus ar (plus ar (y_origin st) height_) 1 |}
  end.

(** The two loops of [draw_buckets] and the warning, in the arithmetic
    [ar]; [layout] is [layout_in exact]. *)
Definition layout_in (ar : arithmetic) (prop : Properties)
    : outcome (list Sketch) :=
  st <- for_row_in ar prop (divisions prop) initial_state ;;
  (if is_drawer_too_small st then warn SmallDimensionsWarning else ret tt) ;;
  ret (sketches st).

(** Rows whose weights can be divided by their sum, and rows whose
    weights cannot. *)
Definition summable_in (ar : arithmetic) (row : Row) : Prop :=
  normalize row = [] \/ ~ total ar (normalize row) == 0.

Definition zero_sum_in (ar : arithmetic) (row : Row) : Prop :=
  normalize row <> [] /\ total ar (normalize row) == 0.

(** The closed form of the layout in [ar]. *)
Definition widths_in (ar : arithmetic) (prop : Properties) (weights : list Q)
    : list Q :=
  map (fun weight =>
         round_2 ar
           (times ar (divide ar weight (total ar weights))
                     (minus ar (width prop) (inject_Z (len weights + 1)))))
      weights.

Definition row_height_in (ar : arithmetic) (prop : Properties) : Q :=
  divide ar (minus ar (length prop) (inject_Z (units_long prop + 1)))
            (inject_Z (units_long prop)).

Fixpoint place_in (ar : arithmetic) (prop : Properties) (height_ x y : Q)
    (widths : list Q) : list Sketch :=
  match widths with
  | [] => []
  | w :: ws =>
      drawer_sketch_in ar prop w height_ x y
      :: place_in ar prop height_ (plus ar (plus ar x w) 1) y ws
  end.

Fixpoint place_rows_in (ar : arithmetic) (prop : Properties) (height_ y : Q)
    (rows : list (list Q)) : list (list Sketch) :=
  match rows with
  | [] => []
  | ws :: rest =>
      place_in ar prop height_ 1 y ws
      :: place_rows_in ar prop height_ (plus ar (plus ar y height_) 1) rest
  end.

(** ** Rationals *)

Lemma Qltb_lt (x y : Q) : Qltb x y = true <-> x < y.
Proof.
  unfold Qltb. rewrite negb_true_iff.
  destruct (Qle_bool y x) eqn:E.
  - apply Qle_bool_iff in E. split; [discriminate | intro; lra].
  - split; [intros _ | reflexivity].
    destruct (Qlt_le_dec x y) as [H | H]; [exact H |].
    apply Qle_bool_iff in H. congruence.
Qed.

Lemma Qltb_ge (x y : Q) : Qltb x y = false <-> y <= x.
Proof.
  unfold Qltb. rewrite negb_false_iff. apply Qle_bool_iff.
Qed.

Lemma Qdiv_100 (r : Q) : r / 100 == r * (1 # 100).
Proof. field. Qed.

Lemma Qdiv_2 (r : Q) : r / 2 == r * (1 # 2).
Proof. field. Qed.

Lemma round_half_even_close (x : Q) :
  x - (1 # 2) <= inject_Z (round_half_even x) <= x + (1 # 2).
Proof.
  unfold round_half_even.
  pose proof (Qfloor_le x) as Hlo.
  pose proof (Qlt_floor x) as Hhi.
  rewrite inject_Z_plus in Hhi. change (inject_Z 1) with 1 in Hhi.
  destruct (Qltb (x - inject_Z (Qfloor x)) (1 # 2)) eqn:E1.
  { apply Qltb_lt in E1. lra. }
  apply Qltb_ge in E1.
  destruct (Qltb (1 # 2) (x - inject_Z (Qfloor x))) eqn:E2.
  { apply Qltb_lt in E2. rewrite inject_Z_plus.
    change (inject_Z 1) with 1. lra. }
  apply Qltb_ge in E2.
  destruct (Z.even (Qfloor x));
    rewrite ?inject_Z_plus; change (inject_Z 1) with 1; lra.
Qed.

Lemma round2_close (x : Q) : Qabs (round2 x - x) <= 0.005.
Proof.
  unfold round2. pose proof (round_half_even_close (x * 100)) as [H1 H2].
  apply Qabs_Qle_condition. set (r := inject_Z _) in *.
  rewrite (Qdiv_100 r). split; lra.
Qed.

Lemma round_half_even_nonneg (x : Q) :
  0 <= x -> (0 <= round_half_even x)%Z.
Proof.
  intro Hx. unfold round_half_even.
  assert (0 <= Qfloor x)%Z as Hf.
  { rewrite <- (Qfloor_Z 0). now apply Qfloor_resp_le. }
  destruct (Qltb _ _); [exact Hf |].
  destruct (Qltb _ _); [lia |].
  destruct (Z.even _); lia.
Qed.

Lemma round2_nonneg (x : Q) : 0 <= x -> 0 <= round2 x.
Proof.
  intro Hx. unfold round2.
  assert (0 <= round_half_even (x * 100))%Z as H.
  { apply round_half_even_nonneg. nra. }
  rewrite Zle_Qle in H. unfold Qdiv. 
  apply Qmult_le_0_compat; [exact H | discriminate].
Qed.

(** ** Sums *)

Lemma fold_left_Qplus_acc (l : list Q) (a : Q) :
  fold_left Qplus l a == a + sum l.
Proof.
  unfold sum. revert a.
  induction l as [| x l IH]; intro a; simpl.
  - ring.
  - rewrite IH, (IH (0 + x)). ring.
Qed.

Lemma sum_cons (x : Q) (l : list Q) : sum (x :: l) == x + sum l.
Proof.
  unfold sum at 1. simpl. rewrite fold_left_Qplus_acc. ring.
Qed.

Lemma sum_nonneg (l : list Q) : Forall (fun x => 0 < x) l -> 0 <= sum l.
Proof.
  induction 1 as [| x l Hx _ IH].
  - unfold sum. simpl. lra.
  - rewrite sum_cons. lra.
Qed.

Lemma sum_pos (l : list Q) :
  Forall (fun x => 0 < x) l -> l <> [] -> 0 < sum l.
Proof.
  intros H Hne. destruct H as [| x l Hx Hl]; [congruence |].
  rewrite sum_cons. pose proof (sum_nonneg l Hl). lra.
Qed.

Lemma sum_round2_close (l : list Q) :
  Qabs (sum (map round2 l) - sum l) <= 0.005 * inject_Z (len l).
Proof.
  induction l as [| x l IH].
  - unfold sum, len. cbn [map fold_left List.length Z.of_nat].
    change (inject_Z 0) with 0. apply Qabs_Qle_condition. split; lra.
  - simpl map. rewrite !sum_cons.
    unfold len in *. simpl List.length. rewrite Nat2Z.inj_succ.
    unfold Z.succ. rewrite inject_Z_plus. change (inject_Z 1) with 1.
    pose proof (round2_close x) as Hx.
    apply Qabs_Qle_condition in Hx. apply Qabs_Qle_condition in IH.
    apply Qabs_Qle_condition. split; lra.
Qed.

(** ** What a valid configuration provides *)

Lemma post_init_ok (prop : Properties) :
  post_init prop = Returns tt [] <->
  (1 <= units_wide prop /\ 1 <= units_long prop /\ 2 <= units_high prop /\
   len (divisions prop) = units_long prop)%Z.
Proof.
  unfold post_init, raise, ret.
  destruct (Z.ltb_spec (units_wide prop) 1);
    destruct (Z.ltb_spec (units_long prop) 1);
    destruct (Z.ltb_spec (units_high prop) 2);
    destruct (Z.eqb_spec (len (divisions prop)) (units_long prop));
    simpl; split; intros; try discriminate; try lia; reflexivity.
Qed.

Lemma positive_row_weights (row : Row) :
  positive_row row -> Forall (fun weight => 0 < weight) (normalize row).
Proof.
  destruct row as [n | ratios]; simpl; intro H; [| exact H].
  apply Forall_forall. intros x Hx.
  apply repeat_spec in Hx. subst x. reflexivity.
Qed.

Lemma positive_row_sum (row : Row) :
  positive_row row -> normalize row = [] \/ 0 < sum (normalize row).
Proof.
  intro H. destruct (normalize row) as [| r rs] eqn:E; [now left | right].
  rewrite <- E. apply sum_pos; [now apply positive_row_weights | congruence].
Qed.

Lemma truediv_ok (a b : Q) : ~ b == 0 -> truediv a b = Returns (a / b) [].
Proof.
  intro H. unfold truediv.
  destruct (Qeq_bool b 0) eqn:E; [| reflexivity].
  apply Qeq_bool_iff in E. contradiction.
Qed.

Lemma row_height_ok (prop : Properties) :
  (1 <= units_long prop)%Z ->
  truediv (length prop - inject_Z (units_long prop + 1))
          (inject_Z (units_long prop))
  = Returns (spec_row_height prop) [].
Proof.
  intro H. apply truediv_ok.
  intro E. assert (0 < inject_Z (units_long prop)) as Hpos.
  { change 0 with (inject_Z 0). rewrite <- Zlt_Qlt. lia. }
  lra.
Qed.

Lemma spec_row_height_pos (prop : Properties) :
  (1 <= units_long prop)%Z -> 0 < spec_row_height prop.
Proof.
  intro H. unfold spec_row_height, length.
  assert (1 <= inject_Z (units_long prop)) as Hl.
  { change 1 with (inject_Z 1). rewrite <- Zle_Qle. exact H. }
  rewrite inject_Z_mult, inject_Z_plus.
  change (inject_Z 42) with 42. change (inject_Z 1) with 1.
  apply Qlt_shift_div_l; lra.
Qed.

(** ** The loops of [draw_buckets] compute the closed form *)

Lemma widths_from_ok (prop : Properties) (row ratios : list Q) :
  ~ sum row == 0 ->
  widths_from prop row ratios
  = Returns (map (spec_drawer_width prop row) ratios) [].
Proof.
  intro Hs. induction ratios as [| ratio rest IH]; simpl.
  - reflexivity.
  - rewrite (truediv_ok _ _ Hs). simpl. rewrite IH. reflexivity.
Qed.

Lemma row_widths_ok (prop : Properties) (row : Row) :
  normalize row = [] \/ 0 < sum (normalize row) ->
  row_widths prop (normalize row) = Returns (spec_row_widths prop row) [].
Proof.
  unfold row_widths, spec_row_widths. intros [E | Hpos].
  - rewrite E. reflexivity.
  - apply widths_from_ok. lra.
Qed.

Lemma for_width_sketches prop h ws st :
  sketches (for_width prop h ws st)
  = sketches st ++ place prop h (x_origin st) (y_origin st) ws.
Proof.
  revert st. induction ws as [| w ws IH]; intro st; simpl.
  - now rewrite app_nil_r.
  - rewrite IH. simpl. now rewrite <- app_assoc.
Qed.

Lemma for_width_y_origin prop h ws st :
  y_origin (for_width prop h ws st) = y_origin st.
Proof.
  revert st. induction ws as [| w ws IH]; intro st; simpl.
  - reflexivity.
  - now rewrite IH.
Qed.

Lemma for_width_too_small prop h ws st :
  is_drawer_too_small (for_width prop h ws st)
  = is_drawer_too_small st || existsb is_small ws.
Proof.
  revert st. induction ws as [| w ws IH]; intro st; simpl.
  - now rewrite orb_false_r.
  - rewrite IH. simpl. unfold is_small.
    destruct (Qltb w small_drawer_width); simpl.
    + now rewrite orb_true_r.
    + reflexivity.
Qed.

Lemma for_row_ok (prop : Properties) (rows : list Row) (st : loop_state) :
  (1 <= units_long prop)%Z ->
  Forall positive_row rows ->
  x_origin st = 1 ->
  exists st',
    for_row prop rows st = Returns st' [] /\
    sketches st'
    = sketches st
      ++ List.concat (place_rows prop (spec_row_height prop) (y_origin st)
                   (map (spec_row_widths prop) rows)) /\
    is_drawer_too_small st'
    = is_drawer_too_small st
      || existsb (existsb is_small) (map (spec_row_widths prop) rows).
Proof.
  intros Hlong Hrows. revert st.
  induction Hrows as [| row rows Hrow _ IH]; intros st Hx.
  - exists st. simpl. now rewrite app_nil_r, orb_false_r.
  - cbn [for_row].
    rewrite (row_widths_ok prop row (positive_row_sum row Hrow)).
    cbn [bind]. rewrite (row_height_ok prop Hlong). cbn [bind].
    match goal with
    | |- context [for_row prop rows ?s] =>
        destruct (IH s eq_refl) as (st' & E & Hs & Hb)
    end.
    exists st'. rewrite E. cbn [app]. split; [reflexivity |].
    cbn [sketches is_drawer_too_small y_origin] in Hs, Hb.
    rewrite for_width_sketches, for_width_y_origin in Hs.
    rewrite for_width_too_small in Hb.
    split.
    + rewrite Hs, Hx. cbn [map place_rows List.concat]. now rewrite <- app_assoc.
    + rewrite Hb. cbn [map existsb]. now rewrite orb_assoc.
Qed.

(** The sketches and the warning of a valid configuration. *)
Lemma layout_ok (prop : Properties) :
  valid prop ->
  layout prop
  = Returns
      (List.concat (place_rows prop (spec_row_height prop) 1
                 (map (spec_row_widths prop) (divisions prop))))
      (if existsb (existsb is_small)
            (map (spec_row_widths prop) (divisions prop))
       then [SmallDimensionsWarning] else []).
Proof.
  intros [Hpost Hrows]. apply post_init_ok in Hpost.
  destruct Hpost as (_ & Hlong & _ & _).
  unfold layout.
  destruct (for_row_ok prop (divisions prop) initial_state Hlong Hrows eq_refl)
    as (st' & E & Hs & Hb).
  rewrite E. cbn [bind]. simpl in Hs, Hb. rewrite Hs, Hb.
  destruct (existsb _ _); reflexivity.
Qed.

(** Two layouts worked out in the specification: three equal drawers on
    four units are 54.67 mm each, and weights 1 : 2 : 1 give 41, 82 and
    41 mm. *)
Example three_equal_drawers :
  exists sks,
    layout (mk 4 1 2 [row_int 3] false false false false) = Returns sks [] /\
    map (fun d => Qred (sk_width d)) sks = [54.67; 54.67; 54.67].
Proof. eexists. split; vm_compute; reflexivity. Qed.

Example drawers_1_2_1 :
  exists sks,
    layout (mk 4 1 2 [row_list [1; 2; 1]] false false false false)
    = Returns sks [] /\
    map (fun d => Qred (sk_width d)) sks = [41; 82; 41].
Proof. eexists. split; vm_compute; reflexivity. Qed.

(** ** Grouping the flat list back into rows *)

Lemma group_concat {A} (sizes : list nat) (rows : list (list A)) :
  Forall2 (fun n r => List.length r = n) sizes rows ->
  group sizes (List.concat rows) = rows.
Proof.
  induction 1 as [| n r sizes rows Hn _ IH]; simpl.
  - reflexivity.
  - subst n. rewrite firstn_app, Nat.sub_diag, firstn_all. simpl.
    rewrite app_nil_r, skipn_app, Nat.sub_diag, skipn_all. simpl.
    now rewrite IH.
Qed.

Lemma place_length prop h x y ws :
  List.length (place prop h x y ws) = List.length ws.
Proof.
  revert x. induction ws as [| w ws IH]; intro x; simpl; [| rewrite IH];
    reflexivity.
Qed.

Lemma drawers_by_row_place_rows prop h y rows :
  group (map drawer_count rows)
    (List.concat (place_rows prop h y (map (spec_row_widths prop) rows)))
  = place_rows prop h y (map (spec_row_widths prop) rows).
Proof.
  apply group_concat. revert y.
  induction rows as [| row rows IH]; intro y; simpl; constructor.
  - rewrite place_length. unfold spec_row_widths, drawer_count.
    now rewrite length_map.
  - apply IH.
Qed.

(** The rows of the layout of a valid configuration. *)
Lemma layout_rows (prop : Properties) (sks : list Sketch) (w : list Warning) :
  valid prop ->
  layout prop = Returns sks w ->
  drawers_by_row prop sks
  = place_rows prop (spec_row_height prop) 1
      (map (spec_row_widths prop) (divisions prop)).
Proof.
  intros Hv E. rewrite (layout_ok prop Hv) in E.
  injection E as <- _. apply drawers_by_row_place_rows.
Qed.

(** ** Drawer sketches *)

Lemma rect_size_drawer prop w h x y :
  rect_size (drawer_sketch prop w h x y) = Some (w, h).
Proof. reflexivity. Qed.

Lemma sk_width_drawer prop w h x y : sk_width (drawer_sketch prop w h x y) = w.
Proof. reflexivity. Qed.

Lemma sk_height_drawer prop w h x y :
  sk_height (drawer_sketch prop w h x y) = h.
Proof. reflexivity. Qed.

Lemma sk_x_drawer prop w h x y :
  sk_x (drawer_sketch prop w h x y) == x - width prop / 2.
Proof.
  unfold sk_x. rewrite sk_width_drawer.
  cbn [drawer_sketch displacement fst s_moved s_call s_rect s_vertices
       s_fillet s_edges app Vector2].
  rewrite !Qdiv_2. unfold Qdiv. ring.
Qed.

Lemma sk_top_drawer prop w h x y :
  sk_top (drawer_sketch prop w h x y) == length prop / 2 - y.
Proof.
  unfold sk_top. rewrite sk_height_drawer.
  cbn [drawer_sketch displacement snd s_moved s_call s_rect s_vertices
       s_fillet s_edges app Vector2].
  rewrite !Qdiv_2. unfold Qdiv. ring.
Qed.

Lemma map_sk_width_place prop h x y ws :
  map sk_width (place prop h x y ws) = ws.
Proof.
  revert x. induction ws as [| w ws IH]; intro x; simpl.
  - reflexivity.
  - now rewrite IH.
Qed.

(** A property of every row carries over from the closed form. *)
Lemma place_rows_Forall2 (P : Row -> list Sketch -> Prop) prop h y rows :
  (forall row y', In row rows ->
     P row (place prop h 1 y' (spec_row_widths prop row))) ->
  Forall2 P rows (place_rows prop h y (map (spec_row_widths prop) rows)).
Proof.
  revert y. induction rows as [| row rows IH]; intros y H; simpl.
  - constructor.
  - constructor.
    + apply H. now left.
    + apply IH. intros r y' Hin. apply H. now right.
Qed.

Lemma place_rows_Forall (P : list Sketch -> Prop) prop h y rows :
  (forall row y', In row rows ->
     P (place prop h 1 y' (spec_row_widths prop row))) ->
  Forall P (place_rows prop h y (map (spec_row_widths prop) rows)).
Proof.
  revert y. induction rows as [| row rows IH]; intros y H; simpl.
  - constructor.
  - constructor.
    + apply H. now left.
    + apply IH. intros r y' Hin. apply H. now right.
Qed.

Lemma valid_p_generate : valid p_generate.
Proof. split; [reflexivity | repeat constructor]. Defined.

(** ** The widths of a row against the width of the box *)

Lemma sum_map_share (s a : Q) (l : list Q) :
  sum (map (fun x => x / s * a) l) == sum l / s * a.
Proof.
  induction l as [| x l IH]; simpl.
  - unfold sum. simpl. unfold Qdiv. ring.
  - rewrite !sum_cons, IH. unfold Qdiv. ring.
Qed.

Lemma spec_row_widths_round2 (prop : Properties) (row : Row) :
  spec_row_widths prop row
  = map round2
      (map (fun x => x / sum (normalize row)
                     * (width prop - inject_Z (len (normalize row) + 1)))
           (normalize row)).
Proof. unfold spec_row_widths. now rewrite map_map. Qed.

Lemma place_fills_width prop h x y row :
  positive_row row -> normalize row <> [] ->
  fills_width prop (place prop h x y (spec_row_widths prop row)).
Proof.
  intros Hpos Hne. unfold fills_width.
  destruct (positive_row_sum row Hpos) as [E | Hs]; [contradiction |].
  rewrite map_sk_width_place, spec_row_widths_round2. unfold len.
  rewrite place_length, !length_map.
  set (ws := normalize row) in *.
  set (a := width prop - inject_Z (Z.of_nat (List.length ws) + 1)).
  set (xs := map (fun x => x / sum ws * a) ws).
  pose proof (sum_round2_close xs) as H.
  assert (sum xs == a) as Hxs.
  { unfold xs. rewrite sum_map_share. field. lra. }
  unfold len, xs in H. rewrite length_map in H. fold xs in H.
  assert (0 <= inject_Z (Z.of_nat (List.length ws))) as Hn.
  { change 0 with (inject_Z 0). rewrite <- Zle_Qle. lia. }
  apply Qabs_Qle_condition in H. apply Qabs_Qle_condition.
  unfold a in Hxs. fold xs. split; lra.
Qed.

(** C3, as stated, fails on a row without drawers: the total is the one
    millimetre of margin, 41 mm short of the width of the box. *)
Lemma empty_row_does_not_fill_width :
  valid p_empty_row /\
  exists sks w,
    layout p_empty_row = Returns sks w /\
    ~ Forall (fills_width p_empty_row) (drawers_by_row p_empty_row sks).
Proof.
  split; [split; [reflexivity | repeat constructor] |].
  exists [], []. split; [reflexivity |].
  intro H. apply Forall_inv in H. revert H. vm_compute. intro H. now apply H.
Qed.

(** C3, amended. For every valid configuration and every row with at
    least one drawer, the sum of the rounded drawer widths plus
    [drawer_count + 1] millimetres of gaps is within
    [0.01 * drawer_count] millimetres of the width of the box. *)
Theorem row_widths_fill_width (prop : Properties) sks w :
  valid prop ->
  layout prop = Returns sks w ->
  Forall (fun drawers => drawers <> [] -> fills_width prop drawers)
    (drawers_by_row prop sks).
Proof.
  intros Hv E. rewrite (layout_rows prop sks w Hv E).
  destruct Hv as [_ Hrows]. rewrite Forall_forall in Hrows.
  apply place_rows_Forall. intros row y Hin Hne.
  apply place_fills_width; [now apply Hrows |].
  intro E0. apply Hne. unfold spec_row_widths. now rewrite E0.
Qed.

Lemma row_widths_fill_width_witness :
  valid p_generate /\
  exists sks w,
    layout p_generate = Returns sks w /\
    Forall (fun drawers => drawers <> [] -> fills_width p_generate drawers)
      (drawers_by_row p_generate sks).
Proof.
  split; [exact valid_p_generate |].
  eexists; eexists. split.
  - apply (layout_ok p_generate valid_p_generate).
  - apply (row_widths_fill_width p_generate _ _ valid_p_generate
             (layout_ok p_generate valid_p_generate)).
Defined.

(** ** Placement *)

Lemma placed_from_place prop h x x' y y' ws :
  x' == x -> y' == y -> placed_from prop x' y' (place prop h x y ws).
Proof.
  revert x x'. induction ws as [| w ws IH]; intros x x' Hx Hy; simpl.
  - exact I.
  - unfold sk_x_origin, sk_y_origin.
    rewrite sk_x_drawer, sk_top_drawer, sk_width_drawer.
    repeat split; try lra.
    apply IH; [lra | exact Hy].
Qed.

Lemma rows_from_place_rows prop h y y' wss :
  y' == y -> rows_from prop h y' (place_rows prop h y wss).
Proof.
  revert y y'. induction wss as [| ws wss IH]; intros y y' Hy; simpl.
  - exact I.
  - split.
    + apply placed_from_place; [reflexivity | exact Hy].
    + apply IH. lra.
Qed.

Lemma place_after prop h x0 x y ws :
  Forall (fun w => 0 <= w) ws -> x0 <= x ->
  Forall (fun d => x0 - width prop / 2 <= sk_x d) (place prop h x y ws).
Proof.
  intro Hws. revert x. induction Hws as [| w ws Hw _ IH]; intros x Hx; simpl.
  - constructor.
  - constructor.
    + rewrite sk_x_drawer. lra.
    + apply IH. lra.
Qed.

Lemma place_x_increasing prop h x y ws :
  Forall (fun w => 0 <= w) ws -> x_increasing (place prop h x y ws).
Proof.
  intro Hws. revert x.
  induction Hws as [| w ws Hw Hws IH]; intro x; simpl; constructor.
  - apply IH.
  - eapply Forall_impl; [| apply (place_after prop h (x + w + 1)); auto; lra].
    intros d Hd. cbv beta in Hd. rewrite sk_x_drawer. lra.
Qed.

Lemma place_non_overlapping prop h x y ws :
  Forall (fun w => 0 <= w) ws -> non_overlapping (place prop h x y ws).
Proof.
  intro Hws. revert x.
  induction Hws as [| w ws Hw Hws IH]; intro x; simpl; constructor.
  - eapply Forall_impl; [| apply (place_after prop h (x + w + 1)); auto; lra].
    intros d Hd (_ & Hlt & _). cbv beta in Hd.
    unfold sk_right in Hlt. rewrite sk_x_drawer, sk_width_drawer in Hlt. lra.
  - apply IH.
Qed.

Lemma spec_row_widths_nonneg prop row :
  positive_row row -> fits prop row ->
  Forall (fun w => 0 <= w) (spec_row_widths prop row).
Proof.
  intros Hpos Hfit. unfold spec_row_widths.
  apply Forall_map. 
  destruct (positive_row_sum row Hpos) as [E | Hs].
  { rewrite E. constructor. }
  eapply Forall_impl; [| apply (positive_row_weights row Hpos)].
  intros weight Hw. cbv beta in Hw. apply round2_nonneg.
  unfold fits in Hfit. rewrite Zle_Qle in Hfit. fold (width prop) in Hfit.
  apply Qmult_le_0_compat; [| lra].
  apply Qlt_le_weak, Qlt_shift_div_l; lra.
Qed.

(** *** A row with more drawers than millimetres *)

Lemma valid_p_crowded : valid p_crowded.
Proof. split; [reflexivity | repeat constructor]. Qed.

Lemma crowded_width :
  spec_drawer_width p_crowded (normalize (row_int 10000)) 1 == - (1).
Proof. vm_compute. reflexivity. Qed.

Lemma crowded_first_two :
  exists d1 d2 rest,
    place_rows p_crowded (spec_row_height p_crowded) 1
      (map (spec_row_widths p_crowded) (divisions p_crowded))
    = [d1 :: d2 :: rest] /\ sk_x d1 == sk_x d2.
Proof.
  cbn [p_crowded mk divisions map place_rows].
  unfold spec_row_widths.
  pose proof crowded_width as Hw. unfold p_crowded, mk in Hw.
  remember (normalize (row_int 10000)) as row eqn:Er.
  assert (forall f : Q -> Q,
            map f row = f 1 :: f 1 :: map f (repeat 1 (Z.to_nat 9998))) as E.
  { intro f. rewrite Er. cbn [normalize].
    replace (Z.to_nat 10000) with (S (S (Z.to_nat 9998))) by lia.
    reflexivity. }
  rewrite E. clear E Er.
  cbn [map place].
  do 3 eexists. split; [reflexivity |].
  rewrite !sk_x_drawer, Hw. lra.
Qed.

(** C4, as stated, fails on a row with more drawers than millimetres:
    each of the 10000 drawers gets the width
    [round(1 / 10000 * (42 - 10001), 2) = -1.0], so [x_origin] advances by
    [-1.0 + 1 = 0] and the second drawer starts where the first does. *)
Lemma crowded_row_is_not_in_order :
  valid p_crowded /\
  (exists sks w, layout p_crowded = Returns sks w) /\
  forall sks w,
    layout p_crowded = Returns sks w ->
    ~ Forall x_increasing (drawers_by_row p_crowded sks).
Proof.
  split; [exact valid_p_crowded |]. split.
  { eexists; eexists; apply (layout_ok p_crowded valid_p_crowded). }
  intros sks w E H.
  pose proof (layout_rows p_crowded _ _ valid_p_crowded E) as R.
  destruct crowded_first_two as (d1 & d2 & rest & E2 & Hx).
  pose proof (eq_trans R E2) as R'. clear R E2.
  rewrite R' in H.
  apply Forall_inv in H. apply StronglySorted_inv in H.
  destruct H as [_ H]. apply Forall_inv in H. lra.
Qed.

(** C4, amended. For every valid configuration, the rows are placed from
    the top down, the first at a 1 mm margin and each next one
    [row height + 1] further, the row height being positive; in each row
    the drawers are placed from a 1 mm margin rightwards, each next one
    [width + 1] further.  In every row that fits
    ([drawer_count + 1 <= width]) the x-positions are strictly increasing
    and no two drawers overlap. *)
Theorem drawers_placed_in_order (prop : Properties) sks w :
  valid prop ->
  layout prop = Returns sks w ->
  rows_from prop (spec_row_height prop) 1 (drawers_by_row prop sks) /\
  0 < spec_row_height prop /\
  Forall2
    (fun row drawers =>
       fits prop row -> x_increasing drawers /\ non_overlapping drawers)
    (divisions prop) (drawers_by_row prop sks).
Proof.
  intros Hv E. rewrite (layout_rows prop sks w Hv E).
  destruct Hv as [Hpost Hrows]. apply post_init_ok in Hpost.
  rewrite Forall_forall in Hrows.
  split; [apply rows_from_place_rows; reflexivity |].
  split; [apply spec_row_height_pos; lia |].
  apply place_rows_Forall2. intros row y Hin Hfit.
  pose proof (spec_row_widths_nonneg prop row (Hrows row Hin) Hfit) as Hws.
  split; [now apply place_x_increasing | now apply place_non_overlapping].
Qed.

Lemma drawers_placed_in_order_witness :
  valid p_generate /\
  exists sks w,
    layout p_generate = Returns sks w /\
    rows_from p_generate (spec_row_height p_generate) 1
      (drawers_by_row p_generate sks) /\
    0 < spec_row_height p_generate /\
    Forall2
      (fun row drawers =>
         fits p_generate row -> x_increasing drawers /\ non_overlapping drawers)
      (divisions p_generate) (drawers_by_row p_generate sks).
Proof.
  split; [exact valid_p_generate |].
  eexists; eexists. split.
  - apply (layout_ok p_generate valid_p_generate).
  - apply (drawers_placed_in_order p_generate _ _ valid_p_generate
             (layout_ok p_generate valid_p_generate)).
Defined.

(** ** The warning *)

Lemma existsb_concat {A} (f : A -> bool) (ls : list (list A)) :
  existsb (existsb f) ls = existsb f (List.concat ls).
Proof.
  induction ls as [| l ls IH]; simpl.
  - reflexivity.
  - now rewrite existsb_app, IH.
Qed.

Lemma map_sk_width_place_rows prop h y wss :
  map sk_width (List.concat (place_rows prop h y wss)) = List.concat wss.
Proof.
  revert y. induction wss as [| ws wss IH]; intro y; simpl.
  - reflexivity.
  - now rewrite map_app, map_sk_width_place, IH.
Qed.

(** What the code does: the warning is issued exactly when some drawer is
    narrower than 15 mm, and all drawers are laid out either way. *)
Lemma layout_warns_below_15 (prop : Properties) sks w :
  valid prop ->
  layout prop = Returns sks w ->
  (w = [SmallDimensionsWarning] /\
   Exists (fun d => sk_width d < small_drawer_width) sks) \/
  (w = [] /\ Forall (fun d => small_drawer_width <= sk_width d) sks).
Proof.
  intros Hv E. rewrite (layout_ok prop Hv) in E.
  injection E as <- <-.
  rewrite existsb_concat, <- (map_sk_width_place_rows prop (spec_row_height prop) 1).
  set (sks := List.concat _).
  destruct (existsb is_small (map sk_width sks)) eqn:Eb.
  - left. split; [reflexivity |].
    apply existsb_exists in Eb. destruct Eb as (x & Hin & Hx).
    apply in_map_iff in Hin. destruct Hin as (d & <- & Hd).
    apply Exists_exists. exists d. split; [exact Hd |].
    now apply Qltb_lt.
  - right. split; [reflexivity |].
    apply Forall_forall. intros d Hd.
    apply Qltb_ge.
    destruct (Qltb (sk_width d) small_drawer_width) eqn:Ed; [| reflexivity].
    rewrite <- Eb. symmetry. apply existsb_exists.
    exists (sk_width d). split; [now apply in_map | exact Ed].
Qed.

(** C5. The code at drawers of 15, 25 and 40 mm: the first drawer is
    15 mm wide, which is "less than or equal to 15mm" as the message of
    the warning says, and no warning is issued. *)
Lemma width_15_is_not_warned :
  valid p_fifteen /\
  exists sks,
    layout p_fifteen = Returns sks [] /\
    map (fun d => Qred (sk_width d)) sks = [15; 25; 40] /\
    Exists (fun d => sk_width d <= small_drawer_width) sks.
Proof.
  split; [split; [reflexivity | repeat constructor] |].
  eexists. split; [vm_compute; reflexivity |].
  split; [vm_compute; reflexivity |].
  apply Exists_cons_hd. vm_compute. discriminate.
Qed.

(** ** The layout does not read the feature flags *)

Lemma widths_from_without_flags prop row ratios :
  widths_from prop row ratios = widths_from (without_flags prop) row ratios.
Proof.
  induction ratios as [| ratio rest IH]; simpl.
  - reflexivity.
  - now rewrite IH.
Qed.

Lemma for_width_without_flags prop h ws st :
  for_width prop h ws st = for_width (without_flags prop) h ws st.
Proof.
  revert st. induction ws as [| w ws IH]; intro st; simpl.
  - reflexivity.
  - now rewrite IH.
Qed.

Lemma for_row_without_flags prop rows st :
  for_row prop rows st = for_row (without_flags prop) rows st.
Proof.
  revert st. induction rows as [| row rows IH]; intro st.
  - reflexivity.
  - cbn [for_row]. unfold row_widths. rewrite widths_from_without_flags.
    destruct (widths_from _ _ _) as [ws w |]; [| reflexivity].
    cbn [bind].
    change (length (without_flags prop)) with (length prop).
    change (units_long (without_flags prop)) with (units_long prop).
    destruct (truediv _ _) as [h w' |]; [| reflexivity].
    cbn [bind]. rewrite for_width_without_flags, IH. reflexivity.
Qed.

Lemma layout_without_flags prop : layout prop = layout (without_flags prop).
Proof.
  unfold layout.
  change (divisions (without_flags prop)) with (divisions prop).
  now rewrite for_row_without_flags.
Qed.

(** C10. Two configurations that agree on [units_wide], [units_long],
    [units_high] and [divisions] have the same layout: the same sketches
    (widths, heights and positions of the drawers), grouped into the same
    rows, and the same warning or exception, whatever the four flags. *)
Theorem layout_ignores_flags (p1 p2 : Properties) :
  units_wide p1 = units_wide p2 ->
  units_long p1 = units_long p2 ->
  units_high p1 = units_high p2 ->
  divisions p1 = divisions p2 ->
  layout p1 = layout p2 /\
  forall sks, drawers_by_row p1 sks = drawers_by_row p2 sks.
Proof.
  intros Hw Hl Hh Hd. split.
  - rewrite (layout_without_flags p1), (layout_without_flags p2).
    unfold without_flags. now rewrite Hw, Hl, Hh, Hd.
  - intro sks. unfold drawers_by_row. now rewrite Hd.
Qed.

Lemma layout_ignores_flags_witness :
  layout p_generate
  = layout (mk 4 3 4 [row_list [1; 2; 1]; row_int 3; row_list [10; 90]]
               false false true true) /\
  forall sks,
    drawers_by_row p_generate sks
    = drawers_by_row
        (mk 4 3 4 [row_list [1; 2; 1]; row_int 3; row_list [10; 90]]
            false false true true) sks.
Proof.
  apply layout_ignores_flags; reflexivity.
Defined.

(** ** Construction *)

(** C2, as stated, fails where a dimension is out of range and the number
    of rows is wrong as well: the dimension checks come first, so
    [Properties(0, 1, 2, [], ...)] raises [InvalidPropertyError], not
    [IncorrectNumberOfRowsError]. *)
Lemma wrong_row_count_with_bad_dimension :
  len ([] : list Row) <> 1%Z /\
  new_Properties 0 1 2 [] false false false false
  = Raises InvalidPropertyError /\
  new_Properties 0 1 2 [] false false false false
  <> Raises IncorrectNumberOfRowsError.
Proof.
  split; [discriminate |]. split; [reflexivity | discriminate].
Qed.

(** C2, amended. Constructing [Properties] with [units_wide < 1] or
    [units_long < 1] raises [InvalidPropertyError]; with [units_high < 2]
    it raises [InvalidPropertyError]; with [units_wide >= 1],
    [units_long >= 1], [units_high >= 2] and
    [len(divisions) != units_long] it raises [IncorrectNumberOfRowsError];
    and with [units_wide >= 1], [units_long >= 1], [units_high >= 2] and
    [len(divisions) == units_long] it returns the configuration, with no
    exception and no warning. *)
Theorem new_Properties_contract
    (uw ul uh : Z) (d : list Row) (scoop ledge magnet screw : bool) :
  let new := new_Properties uw ul uh d scoop ledge magnet screw in
  ((uw < 1 \/ ul < 1)%Z -> new = Raises InvalidPropertyError) /\
  ((uh < 2)%Z -> new = Raises InvalidPropertyError) /\
  ((1 <= uw)%Z -> (1 <= ul)%Z -> (2 <= uh)%Z -> len d <> ul ->
   new = Raises IncorrectNumberOfRowsError) /\
  ((1 <= uw)%Z -> (1 <= ul)%Z -> (2 <= uh)%Z -> len d = ul ->
   new = Returns (mk uw ul uh d scoop ledge magnet screw) []).
Proof.
  cbv zeta. unfold new_Properties, post_init, mk. cbn [units_wide units_long units_high divisions].
  destruct (Z.ltb_spec uw 1); destruct (Z.ltb_spec ul 1);
    destruct (Z.ltb_spec uh 2); destruct (Z.eqb_spec (len d) ul);
    cbn [orb negb bind raise ret app];
    repeat split; intros; try reflexivity; try lia; try contradiction;
    match goal with H : (_ \/ _)%type |- _ => destruct H; lia end.
Qed.

Lemma new_Properties_contract_witness :
  new_Properties 0 1 2 [row_int 1] false false false false
  = Raises InvalidPropertyError /\
  new_Properties 1 1 1 [row_int 1] false false false false
  = Raises InvalidPropertyError /\
  new_Properties 1 2 2 [row_int 1] false false false false
  = Raises IncorrectNumberOfRowsError /\
  new_Properties 1 1 2 [row_int 1] false false false false
  = Returns (mk 1 1 2 [row_int 1] false false false false) [].
Proof.
  split; [| split; [| split]].
  - destruct (new_Properties_contract 0 1 2 [row_int 1]
                false false false false) as (H & _).
    apply H. left. lia.
  - destruct (new_Properties_contract 1 1 1 [row_int 1]
                false false false false) as (_ & H & _).
    apply H. lia.
  - destruct (new_Properties_contract 1 2 2 [row_int 1]
                false false false false) as (_ & _ & H & _).
    apply H; [lia | lia | lia |]. vm_compute. discriminate.
  - destruct (new_Properties_contract 1 1 2 [row_int 1]
                false false false false) as (_ & _ & _ & H).
    apply H; [lia | lia | lia |]. reflexivity.
Defined.

(** ** The label ledge *)

(** C6. With [draw_label_ledge] set, a valid configuration whose height is
    below 13.25 mm gets [CannotDrawLabelLedgesWarning] and its model back
    unchanged; from 13.25 mm on there is no warning and the ledges are
    extruded on the model over [width - 1.5]: one triangle for each row
    [i] of [0 .. units_long - 1], with legs of 12.75 mm, a fillet of
    0.6 at its tip, the last one 3 mm longer, moved to the height
    [(height - 2) / 2] and to row [i]. *)
Theorem label_ledge_needs_height (self : Workplane) (prop : Properties) :
  valid prop ->
  draw_label_ledge prop = true ->
  let row_length :=
    (length prop - inject_Z (units_long prop + 1))
    / inject_Z (units_long prop) in
  let ledge := fun i : Z =>
    let last_offset : Q := if (i =? units_long prop - 1)%Z then 3 else 0 in
    [S_segment (last_offset, 0) (- (12 + 0.75), 0);
     S_segment_to (last_offset, - (12 + 0.75) - last_offset);
     S_close;
     S_assemble;
     S_vertices (Some "<X"%string) None;
     S_fillet 0.6;
     S_moved (- 0.5 - (0.5 * inject_Z (units_long prop) - 1)
                      * (row_length + 1),
              (height prop - 2) / 2,
              0);
     S_moved (inject_Z i * (row_length + 1) - last_offset, 0, 0)] in
  (height prop < 13.25 ->
   drawLabelLedge self prop = Returns self [CannotDrawLabelLedgesWarning]) /\
  (13.25 <= height prop ->
   drawLabelLedge self prop
   = Returns (self
              |> faces ">X[1]"
              |> workplane 0 "CenterOfBoundBox"
              |> placeSketch
                   (map ledge
                      (map Z.of_nat (seq 0 (Z.to_nat (units_long prop)))))
              |> extrude (width prop - 1.5) combine_True) []).
Proof.
  intros [Hpost _] Hflag row_length ledge. apply post_init_ok in Hpost.
  destruct Hpost as (_ & Hlong & _ & _).
  unfold drawLabelLedge. rewrite Hflag. cbn [negb].
  rewrite (row_height_ok prop Hlong). cbn [bind app].
  split; intro Hh.
  - assert (Qltb (height prop) (12 + 0.75 + 0.5) = true) as ->.
    { apply Qltb_lt. lra. }
    reflexivity.
  - assert (Qltb (height prop) (12 + 0.75 + 0.5) = false) as ->.
    { apply Qltb_ge. lra. }
    reflexivity.
Qed.

Lemma label_ledge_needs_height_witness :
  drawLabelLedge new_Workplane p_ledge_low
  = Returns new_Workplane [CannotDrawLabelLedgesWarning] /\
  drawLabelLedge new_Workplane p_ledge_high
  = Returns
      {| calls :=
           [W_faces ">X[1]";
            W_workplane 0 "CenterOfBoundBox";
            W_placeSketch
              [[S_segment (3, 0) (- (12 + 0.75), 0);
                S_segment_to (3, - (12 + 0.75) - 3);
                S_close;
                S_assemble;
                S_vertices (Some "<X"%string) None;
                S_fillet 0.6;
                S_moved (- 0.5 - (0.5 * 1 - 1) * ((42 - 2) / 1 + 1),
                         (21 - 5.6 - 2) / 2,
                         0);
                S_moved (0 * ((42 - 2) / 1 + 1) - 3, 0, 0)]];
            W_extrude (42 - 1.5) combine_True];
         plane_zDir := None |}
      [].
Proof.
  split.
  - apply (label_ledge_needs_height new_Workplane p_ledge_low).
    + split; [reflexivity | repeat constructor].
    + reflexivity.
    + reflexivity.
  - apply (label_ledge_needs_height new_Workplane p_ledge_high).
    + split; [reflexivity | repeat constructor].
    + reflexivity.
    + vm_compute. discriminate.
Defined.

(** ** The fastener holes *)

(** C7. With both [make_magnet_hole] and [make_screw_hole] set, the stage
    selects the four corners of the 26 mm square and cuts the counterbored
    hole [cboreHole(3, 6.5, 2.4, 6)]; no plain [hole] is among the calls
    it adds. *)
Theorem screw_hole_takes_precedence (self : Workplane) (prop : Properties) :
  make_magnet_hole prop = true ->
  make_screw_hole prop = true ->
  drawMagnetBoreHoles self prop
  = (self
     |> set_plane_zDir (0, 0, -1)
     |> faces "<Z[-1]"
     |> faces_AreaNthSelector (-1)
     |> rect 26 26 true
     |> vertices
     |> cboreHole 3 6.5 2.4 6) /\
  calls (drawMagnetBoreHoles self prop)
  = calls self
    ++ [W_faces "<Z[-1]"; W_faces_AreaNth (-1); W_rect 26 26 true; W_vertices;
        W_cboreHole 3 6.5 2.4 6] /\
  forall d depth,
    ~ In (W_hole d depth)
         (skipn (List.length (calls self))
                (calls (drawMagnetBoreHoles self prop))).
Proof.
  intros Hm Hs. unfold drawMagnetBoreHoles. rewrite Hm, Hs. cbn [orb negb].
  split; [reflexivity |].
  assert (forall added,
            calls (self
                   |> set_plane_zDir (0, 0, -1)
                   |> faces "<Z[-1]"
                   |> faces_AreaNthSelector (-1)
                   |> rect 26 26 true
                   |> vertices
                   |> cboreHole 3 6.5 2.4 6) = added ->
            added
            = calls self
              ++ [W_faces "<Z[-1]"; W_faces_AreaNth (-1); W_rect 26 26 true;
                  W_vertices; W_cboreHole 3 6.5 2.4 6]) as E.
  { intros added <-. cbn. now rewrite <- !app_assoc. }
  rewrite (E _ eq_refl). split; [reflexivity |].
  intros d depth. rewrite skipn_app, Nat.sub_diag, skipn_all. cbn [app skipn].
  intros [H | [H | [H | [H | [H | []]]]]]; discriminate.
Qed.

Lemma screw_hole_takes_precedence_witness :
  calls (drawMagnetBoreHoles new_Workplane
           p_both_holes)
  = [W_faces "<Z[-1]"; W_faces_AreaNth (-1); W_rect 26 26 true; W_vertices;
     W_cboreHole 3 6.5 2.4 6].
Proof.
  apply (screw_hole_takes_precedence new_Workplane
           p_both_holes);
    reflexivity.
Defined.

(** What the code does without either flag: it adds no call, and it has
    already assigned [plane.zDir]. *)
Lemma drawMagnetBoreHoles_without_flags (self : Workplane) (prop : Properties) :
  make_magnet_hole prop = false ->
  make_screw_hole prop = false ->
  drawMagnetBoreHoles self prop = set_plane_zDir (0, 0, -1) self.
Proof.
  intros Hm Hs. unfold drawMagnetBoreHoles. now rewrite Hm, Hs.
Qed.

(** C8. The code on a fresh workplane, both flags false: the workplane
    that comes back has no call added, but its [plane.zDir] is
    [(0, 0, -1)] where it was [(0, 0, 1)]. *)
Lemma no_holes_still_turns_the_plane :
  drawMagnetBoreHoles new_Workplane p_plain
  = {| calls := []; plane_zDir := Some (0, 0, -1) |} /\
  drawMagnetBoreHoles new_Workplane p_plain <> new_Workplane.
Proof.
  split; [reflexivity |]. vm_compute. discriminate.
Qed.

(** ** Disabling the finger scoops and the label ledges *)

Lemma layout_with_cuts prop scoop ledge :
  layout (with_cuts prop scoop ledge) = layout prop.
Proof. now apply layout_ignores_flags. Qed.

(** The six other stages do not read the two flags. *)
Lemma other_stages_ignore_cuts prop scoop ledge :
  let q := with_cuts prop scoop ledge in
  forall self,
    drawBases self q = drawBases self prop /\
    drawBuckets self q = drawBuckets self prop /\
    drawFrontSurface self q = drawFrontSurface self prop /\
    drawMate self q = drawMate self prop /\
    drawMagnetBoreHoles self q = drawMagnetBoreHoles self prop /\
    shaveOuterShell self q = shaveOuterShell self prop.
Proof.
  intros q self. repeat split; try reflexivity.
  unfold drawBuckets. unfold q. now rewrite layout_with_cuts.
Qed.

(** The last three stages append calls that depend on the model only
    through the workplane tagged ["base"]. *)
Lemma rim_holes_shell_appends prop t :
  exists after plane,
    forall b, getTagged "base" (calls b) = Some t ->
      rim_holes_shell b prop
      = Returns {| calls := calls b ++ after; plane_zDir := plane |} [].
Proof.
  unfold rim_holes_shell, drawMate, workplaneFromTagged, drawMagnetBoreHoles.
  destruct (make_magnet_hole prop), (make_screw_hole prop); cbn [orb negb];
    eexists; eexists; intros b Hb; rewrite Hb; cbn [bind ret app];
    unfold shaveOuterShell, union, faces, faces_AreaNthSelector, workplane,
      sketch_finalize, cutThruAll, rect, vertices, cboreHole, hole,
      set_plane_zDir, w_call, w_replane;
    cbn [calls plane_zDir]; rewrite <- ?app_assoc; cbn [app]; reflexivity.
Qed.

(** Calls that set no tag leave the lookup of a tag as it was. *)
Lemma getTagged_from_no_tag name seen r found :
  Forall no_tag r -> getTagged_from name seen r found = found.
Proof.
  intro H. revert seen. induction H as [| c r Hc _ IH]; intro seen; simpl.
  - reflexivity.
  - destruct c; try apply IH. exfalso. eapply Hc. reflexivity.
Qed.

Lemma getTagged_from_app name seen r1 r2 found :
  getTagged_from name seen (r1 ++ r2) found
  = getTagged_from name (seen ++ r1) r2 (getTagged_from name seen r1 found).
Proof.
  revert seen found. induction r1 as [| c r1 IH]; intros seen found; simpl.
  - now rewrite app_nil_r.
  - rewrite IH, <- app_assoc. reflexivity.
Qed.

Lemma getTagged_app_no_tag name cs extra :
  Forall no_tag extra -> getTagged name (cs ++ extra) = getTagged name cs.
Proof.
  intro H. unfold getTagged.
  now rewrite getTagged_from_app, getTagged_from_no_tag.
Qed.

(** The two cutting stages append calls, none of them a [tag]. *)
Lemma cuts_append (prop : Properties) :
  (1 <= units_long prop)%Z ->
  exists cuts w,
    Forall no_tag cuts /\
    forall self, exists b3 b4,
      drawFingerScoops self prop = Returns b3 [] /\
      drawLabelLedge b3 prop = Returns b4 w /\
      calls b4 = calls self ++ cuts.
Proof.
  intro Hlong.
  unfold drawFingerScoops, drawLabelLedge.
  rewrite (row_height_ok prop Hlong). cbn [bind app].
  destruct (draw_finger_scoop prop), (draw_label_ledge prop); cbn [negb];
    try destruct (Qltb (height prop) (12 + 0.75 + 0.5));
    eexists; eexists; (split; [| intro self; eexists; eexists;
      split; [reflexivity | split; [reflexivity |];
      unfold extrude, placeSketch, workplane, faces, w_call, w_replane;
      cbn [calls]; rewrite <- ?app_assoc; cbn [app];
      first [reflexivity | symmetry; apply app_nil_r]]]).
  all: repeat constructor; intros n; discriminate.
Qed.

Lemma Returns_inj {A} (a b : A) (w1 w2 : list Warning) :
  Returns a w1 = Returns b w2 -> a = b /\ w1 = w2.
Proof. intro H. now injection H. Qed.

Lemma no_cuts (prop : Properties) :
  draw_finger_scoop prop = false ->
  draw_label_ledge prop = false ->
  forall self,
    drawFingerScoops self prop = Returns self [] /\
    drawLabelLedge self prop = Returns self [].
Proof.
  intros Hs Hl self. unfold drawFingerScoops, drawLabelLedge.
  now rewrite Hs, Hl.
Qed.

(** C9. For a valid configuration with [draw_finger_scoop] and
    [draw_label_ledge] both false, the two stages return the model they
    are given, with no warning.  Against the same configuration with the
    two flags set to any values: the other six stages do not read the two
    flags, and the model differs only by the calls of the two cutting
    stages, which the enabled case has between the front surface and the
    rim; the calls before them (bases, buckets, front surface) and after
    them (rim, holes, shell) are the same. *)
Theorem scoop_and_ledge_disabled (prop : Properties) :
  valid prop ->
  draw_finger_scoop prop = false ->
  draw_label_ledge prop = false ->
  (forall self, drawFingerScoops self prop = Returns self []) /\
  (forall self, drawLabelLedge self prop = Returns self []) /\
  forall scoop ledge,
    let enabled := with_cuts prop scoop ledge in
    (forall self,
       drawBases self enabled = drawBases self prop /\
       drawBuckets self enabled = drawBuckets self prop /\
       drawFrontSurface self enabled = drawFrontSurface self prop /\
       drawMate self enabled = drawMate self prop /\
       drawMagnetBoreHoles self enabled = drawMagnetBoreHoles self prop /\
       shaveOuterShell self enabled = shaveOuterShell self prop) /\
    exists before cuts after plane w w',
      make_box prop
      = Returns {| calls := before ++ after; plane_zDir := plane |} w /\
      make_box enabled
      = Returns {| calls := before ++ cuts ++ after; plane_zDir := plane |}
          (w ++ w') /\
      forall self, exists b3 b4,
        drawFingerScoops self enabled = Returns b3 [] /\
        drawLabelLedge b3 enabled = Returns b4 w' /\
        calls b4 = calls self ++ cuts.
Proof.
  intros Hv Hs Hl.
  split; [intro self; apply (no_cuts prop Hs Hl) |].
  split; [intro self; apply (no_cuts prop Hs Hl) |].
  intros scoop ledge enabled.
  pose proof (other_stages_ignore_cuts prop scoop ledge) as Hsame.
  fold enabled in Hsame. cbv zeta in Hsame.
  split; [exact Hsame |].
  pose proof (layout_ok prop Hv) as Elay.
  destruct Hv as [Hpost _]. apply post_init_ok in Hpost.
  destruct Hpost as (_ & Hlong & _ & _).
  destruct (cuts_append enabled Hlong) as (cuts & w' & Hnotag & Hcuts).
  set (b0 := drawBases new_Workplane prop).
  set (tagged := calls b0 ++ [W_faces "<Z[0]"; W_workplane 0 "CenterOfBoundBox";
                              W_tag "base"]).
  destruct (rim_holes_shell_appends prop tagged) as (after & plane & Htail).
  unfold make_box.
  destruct (Hsame new_Workplane) as (-> & _). fold b0.
  destruct (Hsame b0) as (_ & -> & _).
  unfold drawBuckets. rewrite Elay. cbn [bind ret app].
  match goal with
  | |- context [drawFrontSurface ?b prop] => set (b1 := b)
  end.
  destruct (Hsame b1) as (_ & _ & -> & _).
  set (b2 := drawFrontSurface b1 prop).
  assert (getTagged "base" (calls b2) = Some tagged) as Htag by reflexivity.
  destruct (no_cuts prop Hs Hl b2) as [E1 E2].
  rewrite E1. cbn [bind]. rewrite E2. cbn [bind]. clear E1 E2.
  destruct (Hcuts b2) as (b3 & b4 & E3 & E4 & Hb4).
  rewrite E3. cbn [bind]. rewrite E4. cbn [bind]. clear E3 E4.
  assert (getTagged "base" (calls b4) = Some tagged) as Htag4.
  { rewrite Hb4, getTagged_app_no_tag; assumption. }
  destruct (Hsame b4) as (_ & _ & _ & -> & _).
  pose proof (Htail b2 Htag) as T2. pose proof (Htail b4 Htag4) as T4.
  unfold rim_holes_shell in T2, T4.
  destruct (drawMate b2 prop) as [m2 wm2 |]; [| discriminate].
  destruct (drawMate b4 prop) as [m4 wm4 |]; [| discriminate].
  cbn [bind ret app] in *.
  destruct (Hsame m4) as (_ & _ & _ & _ & -> & _).
  match goal with
  | |- context [shaveOuterShell ?b enabled] =>
      destruct (Hsame b) as (_ & _ & _ & _ & _ & ->)
  end.
  destruct (Returns_inj _ _ _ _ T2) as [-> ->].
  destruct (Returns_inj _ _ _ _ T4) as [-> ->].
  exists (calls b2), cuts, after, plane. eexists; exists w'.
  split; [reflexivity |]. rewrite Hb4, <- app_assoc.
  split; [rewrite !app_nil_r; reflexivity |].
  exact Hcuts.
Qed.

Lemma valid_p_plain : valid p_plain.
Proof. split; [reflexivity | repeat constructor]. Defined.

Lemma scoop_and_ledge_disabled_witness :
  (forall self, drawFingerScoops self p_plain = Returns self []) /\
  (forall self, drawLabelLedge self p_plain = Returns self []) /\
  exists before cuts after plane w w',
    make_box p_plain
    = Returns {| calls := before ++ after; plane_zDir := plane |} w /\
    make_box (with_cuts p_plain true true)
    = Returns {| calls := before ++ cuts ++ after; plane_zDir := plane |}
        (w ++ w') /\
    forall self, exists b3 b4,
      drawFingerScoops self (with_cuts p_plain true true) = Returns b3 [] /\
      drawLabelLedge b3 (with_cuts p_plain true true) = Returns b4 w' /\
      calls b4 = calls self ++ cuts.
Proof.
  destruct (scoop_and_ledge_disabled p_plain valid_p_plain eq_refl eq_refl)
    as (Hscoop & Hledge & H).
  split; [exact Hscoop |]. split; [exact Hledge |].
  exact (proj2 (H true true)).
Defined.

(** ** The layout on any configuration *)

Lemma widths_from_raises prop row ratio rest :
  sum row == 0 ->
  widths_from prop row (ratio :: rest) = Raises ZeroDivisionError.
Proof.
  intro Hs. cbn [widths_from]. unfold truediv.
  assert (Qeq_bool (sum row) 0 = true) as -> by now apply Qeq_bool_iff.
  reflexivity.
Qed.

Lemma row_widths_returns (prop : Properties) (row : Row) :
  summable row ->
  row_widths prop (normalize row) = Returns (spec_row_widths prop row) [].
Proof.
  unfold row_widths, spec_row_widths. intros [E | Hs].
  - rewrite E. reflexivity.
  - now apply widths_from_ok.
Qed.

Lemma row_widths_raises (prop : Properties) (row : Row) :
  zero_sum_row row ->
  row_widths prop (normalize row) = Raises ZeroDivisionError.
Proof.
  intros [Hne Hs]. unfold row_widths.
  destruct (normalize row) as [| r rs] eqn:E; [congruence |].
  rewrite <- E at 1. rewrite <- E in Hs. now apply widths_from_raises.
Qed.

Lemma summable_or_zero_sum (row : Row) : summable row \/ zero_sum_row row.
Proof.
  unfold summable, zero_sum_row.
  destruct (normalize row) as [| r rs] eqn:E; [now left; left |].
  destruct (Qeq_dec (sum (r :: rs)) 0) as [H | H].
  - right. split; [discriminate | exact H].
  - left. now right.
Qed.

Lemma row_height_returns (prop : Properties) :
  units_long prop <> 0%Z ->
  truediv (length prop - inject_Z (units_long prop + 1))
          (inject_Z (units_long prop))
  = Returns (spec_row_height prop) [].
Proof.
  intro H. apply truediv_ok. intro E. apply H.
  unfold Qeq in E. simpl in E. lia.
Qed.

Lemma row_height_raises (prop : Properties) :
  units_long prop = 0%Z ->
  truediv (length prop - inject_Z (units_long prop + 1))
          (inject_Z (units_long prop))
  = Raises ZeroDivisionError.
Proof. intro H. unfold truediv. now rewrite H. Qed.

Lemma for_row_returns (prop : Properties) (rows : list Row) (st : loop_state) :
  units_long prop <> 0%Z ->
  Forall summable rows ->
  x_origin st = 1 ->
  exists st',
    for_row prop rows st = Returns st' [] /\
    sketches st'
    = sketches st
      ++ List.concat (place_rows prop (spec_row_height prop) (y_origin st)
                        (map (spec_row_widths prop) rows)) /\
    is_drawer_too_small st'
    = is_drawer_too_small st
      || existsb (existsb is_small) (map (spec_row_widths prop) rows).
Proof.
  intros Hlong Hrows. revert st.
  induction Hrows as [| row rows Hrow _ IH]; intros st Hx.
  - exists st. simpl. now rewrite app_nil_r, orb_false_r.
  - cbn [for_row]. rewrite (row_widths_returns prop row Hrow).
    cbn [bind]. rewrite (row_height_returns prop Hlong). cbn [bind].
    match goal with
    | |- context [for_row prop rows ?s] =>
        destruct (IH s eq_refl) as (st' & E & Hs & Hb)
    end.
    exists st'. rewrite E. cbn [app]. split; [reflexivity |].
    cbn [sketches is_drawer_too_small y_origin] in Hs, Hb.
    rewrite for_width_sketches, for_width_y_origin in Hs.
    rewrite for_width_too_small in Hb.
    split.
    + rewrite Hs, Hx. cbn [map place_rows List.concat].
      now rewrite <- app_assoc.
    + rewrite Hb. cbn [map existsb]. now rewrite orb_assoc.
Qed.

Lemma for_row_raises (prop : Properties) (rows : list Row) (st : loop_state) :
  rows <> [] ->
  units_long prop = 0%Z \/ Exists zero_sum_row rows ->
  for_row prop rows st = Raises ZeroDivisionError.
Proof.
  revert st. induction rows as [| row rows IH]; intros st Hne H;
    [congruence |].
  cbn [for_row].
  destruct (summable_or_zero_sum row) as [Hrow | Hrow].
  2:{ now rewrite (row_widths_raises prop row Hrow). }
  rewrite (row_widths_returns prop row Hrow). cbn [bind].
  destruct (Z.eq_dec (units_long prop) 0) as [E0 | Hlong].
  { now rewrite (row_height_raises prop E0). }
  rewrite (row_height_returns prop Hlong). cbn [bind].
  destruct H as [H | H]; [contradiction |].
  apply Exists_cons in H. destruct H as [[Hn Hz] | H].
  { destruct Hrow as [Hrow | Hrow]; contradiction. }
  rewrite IH; [reflexivity | | now right].
  intro E. subst rows. inversion H.
Qed.

(** The sketches and the warning whenever no division fails. *)
Lemma layout_returns (prop : Properties) :
  divisions prop = [] \/
  (units_long prop <> 0%Z /\ Forall summable (divisions prop)) ->
  layout prop
  = Returns
      (List.concat (place_rows prop (spec_row_height prop) 1
                      (map (spec_row_widths prop) (divisions prop))))
      (if existsb (existsb is_small)
            (map (spec_row_widths prop) (divisions prop))
       then [SmallDimensionsWarning] else []).
Proof.
  intros [E | [Hlong Hrows]]; unfold layout.
  - rewrite E. reflexivity.
  - destruct (for_row_returns prop (divisions prop) initial_state Hlong Hrows
                eq_refl) as (st' & E & Hs & Hb).
    rewrite E. cbn [bind]. simpl in Hs, Hb. rewrite Hs, Hb.
    destruct (existsb _ _); reflexivity.
Qed.

Lemma layout_raises (prop : Properties) :
  divisions prop <> [] ->
  units_long prop = 0%Z \/ Exists zero_sum_row (divisions prop) ->
  layout prop = Raises ZeroDivisionError.
Proof.
  intros Hne H. unfold layout.
  now rewrite (for_row_raises prop (divisions prop) initial_state Hne H).
Qed.

Lemma layout_cases (prop : Properties) :
  (divisions prop = [] \/
   (units_long prop <> 0%Z /\ Forall summable (divisions prop))) \/
  (divisions prop <> [] /\
   (units_long prop = 0%Z \/ Exists zero_sum_row (divisions prop))).
Proof.
  destruct (divisions prop) as [| row rows] eqn:E; [now left; left |].
  rewrite <- E.
  destruct (Z.eq_dec (units_long prop) 0) as [E0 | Hlong].
  { right. split; [congruence | now left]. }
  assert (Forall summable (divisions prop)
          \/ Exists zero_sum_row (divisions prop)) as [H | H].
  { clear E. induction (divisions prop) as [| r rs IH]; [now left |].
    destruct (summable_or_zero_sum r) as [Hr | Hr]; [| now right; left].
    destruct IH as [IH | IH]; [left | right; right]; auto. }
  - left. right. now split.
  - right. split; [congruence | now right].
Qed.

Lemma layout_returns_inv (prop : Properties) sks w :
  layout prop = Returns sks w ->
  sks = List.concat (place_rows prop (spec_row_height prop) 1
                       (map (spec_row_widths prop) (divisions prop))) /\
  w = (if existsb (existsb is_small)
            (map (spec_row_widths prop) (divisions prop))
       then [SmallDimensionsWarning] else []).
Proof.
  intro E. destruct (layout_cases prop) as [H | [Hne H]].
  - rewrite (layout_returns prop H) in E. injection E as <- <-. now split.
  - rewrite (layout_raises prop Hne H) in E. discriminate.
Qed.

(** ** What the layout reads *)

Lemma width_ext p q : units_wide p = units_wide q -> width p = width q.
Proof. unfold width. now intros ->. Qed.

Lemma length_ext p q : units_long p = units_long q -> length p = length q.
Proof. unfold length. now intros ->. Qed.

Lemma widths_from_ext p q row ratios :
  units_wide p = units_wide q ->
  widths_from p row ratios = widths_from q row ratios.
Proof.
  intro Hw. induction ratios as [| ratio rest IH]; cbn [widths_from].
  - reflexivity.
  - now rewrite IH, (width_ext p q Hw).
Qed.

Lemma for_width_ext p q h ws st :
  units_wide p = units_wide q -> units_long p = units_long q ->
  for_width p h ws st = for_width q h ws st.
Proof.
  intros Hw Hl. revert st.
  induction ws as [| w ws IH]; intro st; cbn [for_width].
  - reflexivity.
  - rewrite IH. unfold drawer_sketch.
    now rewrite (width_ext p q Hw), (length_ext p q Hl).
Qed.

Lemma for_row_ext p q rows st :
  units_wide p = units_wide q -> units_long p = units_long q ->
  for_row p rows st = for_row q rows st.
Proof.
  intros Hw Hl. revert st.
  induction rows as [| row rows IH]; intro st; cbn [for_row].
  - reflexivity.
  - unfold row_widths.
    rewrite (widths_from_ext p q _ _ Hw), (length_ext p q Hl), Hl.
    destruct (widths_from q _ _) as [ws w |]; [| reflexivity].
    cbn [bind]. destruct (truediv _ _) as [h w' |]; [| reflexivity].
    cbn [bind]. now rewrite (for_width_ext p q _ _ _ Hw Hl), IH.
Qed.

(** X1. The layout reads [units_wide], [units_long] and [divisions] and
    nothing else: two configurations that agree on these three, whatever
    their [units_high] and their flags, get the same sketches, the same
    warning and the same failure. *)
Theorem layout_reads_footprint_and_divisions (p q : Properties) :
  units_wide p = units_wide q ->
  units_long p = units_long q ->
  divisions p = divisions q ->
  layout p = layout q.
Proof.
  intros Hw Hl Hd. unfold layout.
  now rewrite Hd, (for_row_ext p q _ _ Hw Hl).
Qed.

Lemma layout_reads_footprint_and_divisions_witness :
  layout p_generate
  = layout (mk 4 3 9 [row_list [1; 2; 1]; row_int 3; row_list [10; 90]]
               false false true false).
Proof.
  apply layout_reads_footprint_and_divisions; reflexivity.
Defined.

(** ** One warning for the whole layout *)

(** X4. Whenever the layout returns, on any configuration, it has issued
    either no warning, and then every drawer is at least 15 mm wide, or
    [SmallDimensionsWarning] once, however many drawers are narrower than
    15 mm, and then some drawer is; a negative width counts as narrow. *)
Theorem small_drawers_warn_once (prop : Properties) sks w :
  layout prop = Returns sks w ->
  (w = [SmallDimensionsWarning] /\
   Exists (fun d => sk_width d < small_drawer_width) sks) \/
  (w = [] /\ Forall (fun d => small_drawer_width <= sk_width d) sks).
Proof.
  intro E. destruct (layout_returns_inv prop sks w E) as [-> ->].
  rewrite existsb_concat,
    <- (map_sk_width_place_rows prop (spec_row_height prop) 1).
  set (sks := List.concat _).
  destruct (existsb is_small (map sk_width sks)) eqn:Eb.
  - left. split; [reflexivity |].
    apply existsb_exists in Eb. destruct Eb as (x & Hin & Hx).
    apply in_map_iff in Hin. destruct Hin as (d & <- & Hd).
    apply Exists_exists. exists d. split; [exact Hd | now apply Qltb_lt].
  - right. split; [reflexivity |].
    apply Forall_forall. intros d Hd. apply Qltb_ge.
    destruct (Qltb (sk_width d) small_drawer_width) eqn:Ed; [| reflexivity].
    rewrite <- Eb. symmetry. apply existsb_exists.
    exists (sk_width d). split; [now apply in_map | exact Ed].
Qed.

Lemma small_drawers_warn_once_witness :
  exists sks,
    layout p_no_drawers = Returns sks [SmallDimensionsWarning] /\
    Exists (fun d => sk_width d < small_drawer_width) sks.
Proof.
  eexists. split; [vm_compute; reflexivity |].
  match goal with
  | |- Exists _ ?s =>
      destruct (small_drawers_warn_once p_no_drawers s
                  [SmallDimensionsWarning]) as [[_ H] | [H _]]
  end.
  - vm_compute; reflexivity.
  - exact H.
  - discriminate H.
Defined.

(** ** Rounding keeps the order *)

Lemma round_half_even_floor (x : Q) :
  round_half_even x = Qfloor x \/ round_half_even x = (Qfloor x + 1)%Z.
Proof.
  unfold round_half_even.
  destruct (Qltb _ _); [now left |].
  destruct (Qltb _ _); [now right |].
  destruct (Z.even _); [now left | now right].
Qed.

Lemma round_half_even_mono (x y : Q) :
  x <= y -> (round_half_even x <= round_half_even y)%Z.
Proof.
  intro Hxy. pose proof (Qfloor_resp_le x y Hxy) as Hf.
  destruct (Z.eq_dec (Qfloor x) (Qfloor y)) as [E | Hne].
  - unfold round_half_even. rewrite <- E.
    destruct (Qltb (x - inject_Z (Qfloor x)) (1 # 2)) eqn:X1.
    { destruct (Qltb (y - _) _); [lia |].
      destruct (Qltb _ (y - _)); [lia |]. destruct (Z.even _); lia. }
    apply Qltb_ge in X1.
    assert (Qltb (y - inject_Z (Qfloor x)) (1 # 2) = false) as ->.
    { apply Qltb_ge. lra. }
    destruct (Qltb (1 # 2) (x - inject_Z (Qfloor x))) eqn:X2.
    { apply Qltb_lt in X2.
      assert (Qltb (1 # 2) (y - inject_Z (Qfloor x)) = true) as ->.
      { apply Qltb_lt. lra. }
      lia. }
    destruct (Qltb (1 # 2) (y - inject_Z (Qfloor x)));
      destruct (Z.even (Qfloor x)); lia.
  - destruct (round_half_even_floor x) as [-> | ->];
      destruct (round_half_even_floor y) as [-> | ->]; lia.
Qed.

Lemma round2_mono (x y : Q) : x <= y -> round2 x <= round2 y.
Proof.
  intro H. unfold round2.
  assert (x * 100 <= y * 100) as H100 by lra.
  apply round_half_even_mono in H100. rewrite Zle_Qle in H100.
  rewrite !Qdiv_100. lra.
Qed.

(** ** The widths within a row *)

Lemma combine_place_width prop h x y (f : Q -> Q) ws w d :
  In (w, d) (combine ws (place prop h x y (map f ws))) -> sk_width d = f w.
Proof.
  revert x. induction ws as [| w0 ws IH]; intro x; simpl.
  - intros [].
  - intros [H | H].
    + injection H as <- <-. reflexivity.
    + now apply (IH _ H).
Qed.

Lemma spec_drawer_width_mono prop row wi wj :
  positive_row row -> fits prop row -> normalize row <> [] ->
  wi <= wj ->
  spec_drawer_width prop (normalize row) wi
  <= spec_drawer_width prop (normalize row) wj.
Proof.
  intros Hpos Hfit Hne Hle. unfold spec_drawer_width. apply round2_mono.
  destruct (positive_row_sum row Hpos) as [E | Hs]; [contradiction |].
  unfold fits in Hfit. rewrite Zle_Qle in Hfit. fold (width prop) in Hfit.
  apply Qmult_le_compat_r; [| lra].
  unfold Qdiv. apply Qmult_le_compat_r; [exact Hle |].
  apply Qlt_le_weak, Qinv_lt_0_compat, Hs.
Qed.

(** X6. In a valid configuration, within a row that fits
    ([drawer_count + 1 <= width]), a drawer with a larger weight is never
    narrower than one with a smaller weight. *)
Theorem larger_weight_is_not_narrower (prop : Properties) sks w :
  valid prop ->
  layout prop = Returns sks w ->
  Forall2
    (fun row drawers =>
       fits prop row ->
       forall wi di wj dj,
         In (wi, di) (combine (normalize row) drawers) ->
         In (wj, dj) (combine (normalize row) drawers) ->
         wi <= wj -> sk_width di <= sk_width dj)
    (divisions prop) (drawers_by_row prop sks).
Proof.
  intros Hv E. rewrite (layout_rows prop sks w Hv E).
  destruct Hv as [_ Hrows]. rewrite Forall_forall in Hrows.
  apply place_rows_Forall2. intros row y Hin Hfit wi di wj dj Hi Hj Hle.
  unfold spec_row_widths in Hi, Hj.
  rewrite (combine_place_width _ _ _ _ _ _ _ _ Hi),
    (combine_place_width _ _ _ _ _ _ _ _ Hj).
  apply spec_drawer_width_mono; auto.
  intro E0. rewrite E0 in Hi. destruct Hi.
Qed.

Lemma larger_weight_is_not_narrower_witness :
  exists sks w,
    layout p_generate = Returns sks w /\
    Forall2
      (fun row drawers =>
         fits p_generate row ->
         forall wi di wj dj,
           In (wi, di) (combine (normalize row) drawers) ->
           In (wj, dj) (combine (normalize row) drawers) ->
           wi <= wj -> sk_width di <= sk_width dj)
      (divisions p_generate) (drawers_by_row p_generate sks).
Proof.
  eexists; eexists. split.
  - apply (layout_ok p_generate valid_p_generate).
  - apply (larger_weight_is_not_narrower p_generate _ _ valid_p_generate
             (layout_ok p_generate valid_p_generate)).
Defined.

(** ** The row height and the total width of a row *)

Lemma inject_Z_succ (k : nat) :
  inject_Z (Z.of_nat (S k)) == inject_Z (Z.of_nat k) + 1.
Proof. rewrite Nat2Z.inj_succ. unfold Z.succ. now rewrite inject_Z_plus. Qed.


Lemma row_widths_total (prop : Properties) (row : Row) :
  positive_row row -> normalize row <> [] ->
  sum (spec_row_widths prop row)
  <= width prop - inject_Z (len (normalize row) + 1)
     + 0.005 * inject_Z (len (normalize row)).
Proof.
  intros Hpos Hne.
  destruct (positive_row_sum row Hpos) as [E | Hs]; [contradiction |].
  rewrite spec_row_widths_round2.
  set (ws := normalize row) in *.
  set (a := width prop - inject_Z (len ws + 1)).
  set (xs := map (fun x => x / sum ws * a) ws).
  pose proof (sum_round2_close xs) as H.
  assert (sum xs == a) as Hxs.
  { unfold xs. rewrite sum_map_share. field. lra. }
  assert (len xs = len ws) as Hlen.
  { unfold len, xs. now rewrite length_map. }
  rewrite Hlen in H. apply Qabs_Qle_condition in H. lra.
Qed.

(** ** The finger scoops *)



(** ** One kind of hole *)

(** X11. [make_screw_hole] alone decides for the counterbored hole,
    whether or not [make_magnet_hole] is set; the plain bore
    [hole(6.5, 2.4)] is cut when only [make_magnet_hole] is set.  Either
    way the four corners of the 26 mm square are selected first, exactly
    one cutting call is added, and the workplane comes back with
    [plane.zDir = (0, 0, -1)]. *)
Theorem holes_by_flags (self : Workplane) (prop : Properties) :
  (make_screw_hole prop = true ->
   calls (drawMagnetBoreHoles self prop)
   = calls self
     ++ [W_faces "<Z[-1]"; W_faces_AreaNth (-1); W_rect 26 26 true;
         W_vertices; W_cboreHole 3 6.5 2.4 6]) /\
  (make_screw_hole prop = false -> make_magnet_hole prop = true ->
   calls (drawMagnetBoreHoles self prop)
   = calls self
     ++ [W_faces "<Z[-1]"; W_faces_AreaNth (-1); W_rect 26 26 true;
         W_vertices; W_hole 6.5 2.4]) /\
  plane_zDir (drawMagnetBoreHoles self prop) = Some (0, 0, -1).
Proof.
  unfold drawMagnetBoreHoles.
  destruct (make_magnet_hole prop), (make_screw_hole prop);
    cbn [orb negb];
    unfold cboreHole, hole, vertices, rect, faces_AreaNthSelector, faces,
      set_plane_zDir, w_call; cbn [calls plane_zDir];
    rewrite <- ?app_assoc; cbn [app];
    repeat split; intros; try reflexivity; discriminate.
Qed.

Lemma holes_by_flags_witness :
  calls (drawMagnetBoreHoles new_Workplane
           (mk 1 1 2 [row_int 1] false false true false))
  = [W_faces "<Z[-1]"; W_faces_AreaNth (-1); W_rect 26 26 true;
     W_vertices; W_hole 6.5 2.4] /\
  calls (drawMagnetBoreHoles new_Workplane
           (mk 1 1 2 [row_int 1] false false false true))
  = [W_faces "<Z[-1]"; W_faces_AreaNth (-1); W_rect 26 26 true;
     W_vertices; W_cboreHole 3 6.5 2.4 6].
Proof.
  split.
  - destruct (holes_by_flags new_Workplane
                (mk 1 1 2 [row_int 1] false false true false))
      as (_ & H & _).
    apply H; reflexivity.
  - destruct (holes_by_flags new_Workplane
                (mk 1 1 2 [row_int 1] false false false true))
      as (H & _).
    apply H; reflexivity.
Defined.

(** ** Export *)

Lemma dict_get_set (k k' : string) v d :
  dict_get k (dict_set k' v d)
  = if String.eqb k' k then Some v else dict_get k d.
Proof.
  induction d as [| [k0 v0] d IH]; simpl.
  - reflexivity.
  - destruct (String.eqb_spec k0 k') as [-> | Hne]; simpl.
    + destruct (String.eqb k' k); reflexivity.
    + rewrite IH.
      destruct (String.eqb_spec k0 k) as [-> | Hne'];
        destruct (String.eqb_spec k' k) as [-> | Hne'']; congruence.
Qed.

Lemma dict_get_absent (k : string) (d : dict) :
  ~ In k (map fst d) -> dict_get k d = None.
Proof.
  induction d as [| [k0 v0] d IH]; simpl; intro H.
  - reflexivity.
  - destruct (String.eqb_spec k0 k) as [-> | Hne].
    + exfalso. apply H. now left.
    + apply IH. intro Hin. apply H. now right.
Qed.

Lemma dict_get_update (k : string) (d other : dict) :
  NoDup (map fst other) ->
  dict_get k (dict_update d other)
  = match dict_get k other with
    | Some v => Some v
    | None => dict_get k d
    end.
Proof.
  unfold dict_update. intro H. revert d.
  induction other as [| [k1 v1] other IH]; intro d; simpl.
  - reflexivity.
  - simpl in H. apply NoDup_cons_iff in H. destruct H as [Hnotin H].
    rewrite (IH H), dict_get_set.
    destruct (String.eqb_spec k1 k) as [-> | Hne].
    + now rewrite (dict_get_absent k other Hnotin).
    + reflexivity.
Qed.

(** X13. [export_svg] makes exactly one export, of type [SVG], of the
    model it is given, to the file it is given, with both tolerances 0.1,
    and returns the model.  Each rendering option has the caller's value
    when the caller's options (a dict, so with each key once) give one,
    and its default otherwise: [showAxes] and [showHidden] false, both
    margins 10, [projectionDir] (2.75, -2.6, 2), [focus] 500. *)
Theorem export_svg_options (box : Workplane) (out_file : option string)
    (opt : option dict) :
  NoDup (map fst (items opt)) ->
  exists settings,
    export_svg box out_file opt
    = (box,
       [{| e_box := box; e_fname := out_file;
           e_exportType := Some "SVG"%string;
           e_tolerance := 0.1; e_angularTolerance := 0.1;
           e_opt := Some settings |}]) /\
    forall k,
      dict_get k settings
      = match dict_get k (items opt) with
        | Some v => Some v
        | None => dict_get k svg_settings
        end.
Proof.
  intro H. unfold export_svg, export_box.
  destruct opt as [[| item rest] |]; eexists; (split; [reflexivity |]);
    intro k; try reflexivity.
  now apply dict_get_update.
Qed.

Lemma export_svg_options_witness :
  exists settings,
    export_svg new_Workplane (Some "output.svg"%string)
      (Some [("focus"%string, O_number 300); ("showAxes"%string, O_bool true)])
    = (new_Workplane,
       [{| e_box := new_Workplane; e_fname := Some "output.svg"%string;
           e_exportType := Some "SVG"%string;
           e_tolerance := 0.1; e_angularTolerance := 0.1;
           e_opt := Some settings |}]) /\
    forall k,
      dict_get k settings
      = match dict_get k
                (items (Some [("focus"%string, O_number 300);
                              ("showAxes"%string, O_bool true)])) with
        | Some v => Some v
        | None => dict_get k svg_settings
        end.
Proof.
  apply export_svg_options.
  repeat constructor; simpl; intuition discriminate.
Defined.

(** X12. [make_box] with export arguments builds the same model, with the
    same warnings, as without, and fails when and as the pipeline fails,
    then exporting nothing.  It exports once, with the arguments it was
    given, exactly when [out_file] is a string that is not empty: [None]
    and the empty string both mean no export. *)
Theorem make_box_exports_when_given (prop : Properties)
    (out_file export_type : option string) (tolerance angular_tolerance : Q)
    (opt : option dict) :
  (forall e, make_box prop = Raises e ->
     make_box_to prop out_file export_type tolerance angular_tolerance opt
     = Raises e) /\
  (forall box w, make_box prop = Returns box w ->
     make_box_to prop out_file export_type tolerance angular_tolerance opt
     = Returns
         (box,
          if is_given out_file then
            [{| e_box := box; e_fname := out_file;
                e_exportType := export_type; e_tolerance := tolerance;
                e_angularTolerance := angular_tolerance; e_opt := opt |}]
          else [])
         w) /\
  is_given None = false /\ is_given (Some ""%string) = false /\
  (forall c s, is_given (Some (String c s)) = true).
Proof.
  unfold make_box_to. split; [| split].
  - intros e ->. reflexivity.
  - intros box w ->. cbn [bind].
    destruct (is_given out_file); cbn [export_box ret]; now rewrite app_nil_r.
  - repeat split.
Qed.

Lemma make_box_p_plain : exists box w, make_box p_plain = Returns box w.
Proof. eexists; eexists. vm_compute. reflexivity. Defined.

Lemma make_box_exports_when_given_witness :
  exists box w,
    make_box p_plain = Returns box w /\
    make_box_to p_plain (Some "output.stl"%string) None 0.1 0.1 None
    = Returns
        (box,
         [{| e_box := box; e_fname := Some "output.stl"%string;
             e_exportType := None; e_tolerance := 0.1;
             e_angularTolerance := 0.1; e_opt := None |}])
        w /\
    make_box_to p_plain (Some ""%string) None 0.1 0.1 None
    = Returns (box, []) w.
Proof.
  destruct make_box_p_plain as (box & w & E).
  eexists; eexists. split; [exact E |]. split.
  - apply (make_box_exports_when_given p_plain (Some "output.stl"%string)
             None 0.1 0.1 None).
    exact E.
  - apply (make_box_exports_when_given p_plain (Some ""%string)
             None 0.1 0.1 None).
    exact E.
Defined.

(** ** Too many drawers for the width *)

Lemma sum_at_least (c : Q) (l : list Q) :
  Forall (fun x => c <= x) l -> c * inject_Z (len l) <= sum l.
Proof.
  unfold len. induction 1 as [| x l Hx _ IH].
  - unfold sum. simpl. change (inject_Z 0) with 0. lra.
  - rewrite sum_cons. cbn [List.length]. rewrite inject_Z_succ. lra.
Qed.

Lemma existsb_is_small_false (ws : list Q) :
  existsb is_small ws = false -> Forall (fun w => small_drawer_width <= w) ws.
Proof.
  intro H. apply Forall_forall. intros w Hin. apply Qltb_ge.
  destruct (Qltb w small_drawer_width) eqn:E; [| reflexivity].
  rewrite <- H. symmetry. apply existsb_exists. exists w. now split.
Qed.

(** X14. In a valid configuration, a row with so many drawers that
    [15.995 * drawer_count + 1] exceeds the width of the box always gets
    [SmallDimensionsWarning]: its drawers cannot all be 15 mm wide. *)
Theorem crowded_row_is_warned (prop : Properties) (row : Row) :
  valid prop ->
  In row (divisions prop) ->
  width prop < 15.995 * inject_Z (len (normalize row)) + 1 ->
  exists sks, layout prop = Returns sks [SmallDimensionsWarning].
Proof.
  intros Hv Hin Hmany. rewrite (layout_ok prop Hv).
  destruct (existsb (existsb is_small) _) eqn:Eb; [now eexists |].
  exfalso.
  assert (existsb is_small (spec_row_widths prop row) = false) as Hrow.
  { destruct (existsb is_small (spec_row_widths prop row)) eqn:E;
      [| reflexivity].
    rewrite <- Eb. symmetry. apply existsb_exists.
    exists (spec_row_widths prop row). split; [now apply in_map | exact E]. }
  apply existsb_is_small_false, sum_at_least in Hrow.
  destruct Hv as [Hpost Hrows]. rewrite Forall_forall in Hrows.
  apply post_init_ok in Hpost. destruct Hpost as (Hwide & _).
  assert (42 <= width prop) as H42.
  { unfold width. change 42 with (inject_Z 42). rewrite <- Zle_Qle. lia. }
  assert (normalize row <> []) as Hne.
  { intro E. rewrite E in Hmany. unfold len in Hmany. simpl in Hmany.
    change (inject_Z 0) with 0 in Hmany. lra. }
  pose proof (row_widths_total prop row (Hrows row Hin) Hne) as Htot.
  assert (len (spec_row_widths prop row) = len (normalize row)) as Hlen.
  { unfold len, spec_row_widths. now rewrite length_map. }
  rewrite Hlen in Hrow. unfold small_drawer_width in Hrow.
  rewrite inject_Z_plus in Htot. change (inject_Z 1) with 1 in Htot. lra.
Qed.

Lemma crowded_row_is_warned_witness :
  exists sks,
    layout (mk 1 1 2 [row_int 3] false false false false)
    = Returns sks [SmallDimensionsWarning].
Proof.
  apply (crowded_row_is_warned
           (mk 1 1 2 [row_int 3] false false false false) (row_int 3)).
  - split; [reflexivity | repeat constructor].
  - now left.
  - vm_compute. reflexivity.
Defined.

(** ** The layout in any arithmetic *)

Lemma truediv_in_ok (ar : arithmetic) (a b : Q) :
  ~ b == 0 -> truediv_in ar a b = Returns (divide ar a b) [].
Proof.
  intro H. unfold truediv_in.
  destruct (Qeq_bool b 0) eqn:E; [| reflexivity].
  apply Qeq_bool_iff in E. contradiction.
Qed.

Lemma widths_from_in_ok (ar : arithmetic) (prop : Properties)
    (row ratios : list Q) :
  ~ total ar row == 0 ->
  widths_from_in ar prop row ratios
  = Returns
      (map (fun weight =>
              round_2 ar
                (times ar (divide ar weight (total ar row))
                          (minus ar (width prop) (inject_Z (len row + 1)))))
           ratios) [].
Proof.
  intro Hs. induction ratios as [| ratio rest IH]; cbn [widths_from_in map].
  - reflexivity.
  - rewrite (truediv_in_ok ar _ _ Hs). cbn [bind]. rewrite IH. reflexivity.
Qed.

Lemma widths_from_in_raises (ar : arithmetic) prop row ratio rest :
  total ar row == 0 ->
  widths_from_in ar prop row (ratio :: rest) = Raises ZeroDivisionError.
Proof.
  intro Hs. cbn [widths_from_in]. unfold truediv_in.
  assert (Qeq_bool (total ar row) 0 = true) as -> by now apply Qeq_bool_iff.
  reflexivity.
Qed.

Lemma row_widths_in_returns (ar : arithmetic) (prop : Properties) (row : Row) :
  summable_in ar row ->
  row_widths_in ar prop (normalize row)
  = Returns (widths_in ar prop (normalize row)) [].
Proof.
  unfold row_widths_in, widths_in. intros [E | Hs].
  - rewrite E. reflexivity.
  - now apply widths_from_in_ok.
Qed.

Lemma row_widths_in_raises (ar : arithmetic) (prop : Properties) (row : Row) :
  zero_sum_in ar row ->
  row_widths_in ar prop (normalize row) = Raises ZeroDivisionError.
Proof.
  intros [Hne Hs]. unfold row_widths_in.
  destruct (normalize row) as [| r rs] eqn:E; [congruence |].
  now apply widths_from_in_raises.
Qed.

Lemma summable_or_zero_sum_in (ar : arithmetic) (row : Row) :
  summable_in ar row \/ zero_sum_in ar row.
Proof.
  unfold summable_in, zero_sum_in.
  destruct (normalize row) as [| r rs] eqn:E; [now left; left |].
  destruct (Qeq_dec (total ar (r :: rs)) 0) as [H | H].
  - right. split; [discriminate | exact H].
  - left. now right.
Qed.

Lemma row_height_in_returns (ar : arithmetic) (prop : Properties) :
  units_long prop <> 0%Z ->
  truediv_in ar (minus ar (length prop) (inject_Z (units_long prop + 1)))
             (inject_Z (units_long prop))
  = Returns (row_height_in ar prop) [].
Proof.
  intro H. apply truediv_in_ok. intro E. apply H.
  unfold Qeq in E. simpl in E. lia.
Qed.

Lemma row_height_in_raises (ar : arithmetic) (prop : Properties) :
  units_long prop = 0%Z ->
  truediv_in ar (minus ar (length prop) (inject_Z (units_long prop + 1)))
             (inject_Z (units_long prop))
  = Raises ZeroDivisionError.
Proof. intro H. unfold truediv_in. now rewrite H. Qed.

Lemma for_width_in_sketches (ar : arithmetic) prop h ws st :
  sketches (for_width_in ar prop h ws st)
  = sketches st ++ place_in ar prop h (x_origin st) (y_origin st) ws.
Proof.
  revert st. induction ws as [| w ws IH]; intro st; simpl.
  - now rewrite app_nil_r.
  - rewrite IH. simpl. now rewrite <- app_assoc.
Qed.

Lemma for_width_in_y_origin (ar : arithmetic) prop h ws st :
  y_origin (for_width_in ar prop h ws st) = y_origin st.
Proof.
  revert st. induction ws as [| w ws IH]; intro st; simpl.
  - reflexivity.
  - now rewrite IH.
Qed.

Lemma for_row_in_returns (ar : arithmetic) (prop : Properties)
    (rows : list Row) (st : loop_state) :
  units_long prop <> 0%Z ->
  Forall (summable_in ar) rows ->
  x_origin st = 1 ->
  exists st',
    for_row_in ar prop rows st = Returns st' [] /\
    sketches st'
    = sketches st
      ++ List.concat
           (place_rows_in ar prop (row_height_in ar prop) (y_origin st)
              (map (fun row => widths_in ar prop (normalize row)) rows)).
Proof.
  intros Hlong Hrows. revert st.
  induction Hrows as [| row rows Hrow _ IH]; intros st Hx.
  - exists st. simpl. now rewrite app_nil_r.
  - cbn [for_row_in]. rewrite (row_widths_in_returns ar prop row Hrow).
    cbn [bind]. rewrite (row_height_in_returns ar prop Hlong). cbn [bind].
    match goal with
    | |- context [for_row_in ar prop rows ?s] =>
        destruct (IH s eq_refl) as (st' & E & Hs)
    end.
    exists st'. rewrite E. cbn [app]. split; [reflexivity |].
    cbn [sketches y_origin] in Hs.
    rewrite for_width_in_sketches, for_width_in_y_origin in Hs.
    rewrite Hs, Hx. cbn [map place_rows_in List.concat].
    now rewrite <- app_assoc.
Qed.

Lemma for_row_in_raises (ar : arithmetic) (prop : Properties)
    (rows : list Row) (st : loop_state) :
  rows <> [] ->
  units_long prop = 0%Z \/ Exists (zero_sum_in ar) rows ->
  for_row_in ar prop rows st = Raises ZeroDivisionError.
Proof.
  revert st. induction rows as [| row rows IH]; intros st Hne H;
    [congruence |].
  cbn [for_row_in].
  destruct (summable_or_zero_sum_in ar row) as [Hrow | Hrow].
  2:{ now rewrite (row_widths_in_raises ar prop row Hrow). }
  rewrite (row_widths_in_returns ar prop row Hrow). cbn [bind].
  destruct (Z.eq_dec (units_long prop) 0) as [E0 | Hlong].
  { now rewrite (row_height_in_raises ar prop E0). }
  rewrite (row_height_in_returns ar prop Hlong). cbn [bind].
  destruct H as [H | H]; [contradiction |].
  apply Exists_cons in H. destruct H as [[Hn Hz] | H].
  { destruct Hrow as [Hrow | Hrow]; contradiction. }
  rewrite IH; [reflexivity | | now right].
  intro E. subst rows. inversion H.
Qed.

Lemma layout_in_returns (ar : arithmetic) (prop : Properties) :
  divisions prop = [] \/
  (units_long prop <> 0%Z /\ Forall (summable_in ar) (divisions prop)) ->
  exists w,
    layout_in ar prop
    = Returns
        (List.concat
           (place_rows_in ar prop (row_height_in ar prop) 1
              (map (fun row => widths_in ar prop (normalize row))
                   (divisions prop))))
        w.
Proof.
  intros [E | [Hlong Hrows]]; unfold layout_in.
  - rewrite E. now eexists.
  - destruct (for_row_in_returns ar prop (divisions prop) initial_state
                Hlong Hrows eq_refl) as (st' & E & Hs).
    rewrite E. cbn [bind]. simpl in Hs. rewrite Hs.
    destruct (is_drawer_too_small st'); now eexists.
Qed.

Lemma layout_in_raises (ar : arithmetic) (prop : Properties) :
  divisions prop <> [] ->
  units_long prop = 0%Z \/ Exists (zero_sum_in ar) (divisions prop) ->
  layout_in ar prop = Raises ZeroDivisionError.
Proof.
  intros Hne H. unfold layout_in.
  now rewrite (for_row_in_raises ar prop (divisions prop) initial_state Hne H).
Qed.

Lemma layout_in_cases (ar : arithmetic) (prop : Properties) :
  (divisions prop = [] \/
   (units_long prop <> 0%Z /\ Forall (summable_in ar) (divisions prop))) \/
  (divisions prop <> [] /\
   (units_long prop = 0%Z \/ Exists (zero_sum_in ar) (divisions prop))).
Proof.
  destruct (divisions prop) as [| row rows] eqn:E; [now left; left |].
  rewrite <- E.
  destruct (Z.eq_dec (units_long prop) 0) as [E0 | Hlong].
  { right. split; [congruence | now left]. }
  assert (Forall (summable_in ar) (divisions prop)
          \/ Exists (zero_sum_in ar) (divisions prop)) as [H | H].
  { clear E. induction (divisions prop) as [| r rs IH]; [now left |].
    destruct (summable_or_zero_sum_in ar r) as [Hr | Hr]; [| now right; left].
    destruct IH as [IH | IH]; [left | right; right]; auto. }
  - left. right. now split.
  - right. split; [congruence | now right].
Qed.

(** The closed form, row by row and drawer by drawer. *)
Lemma place_in_Forall2 (ar : arithmetic) prop h x y (f : Q -> Q) weights :
  Forall2 (fun weight d => exists x', d = drawer_sketch_in ar prop (f weight) h x' y)
    weights (place_in ar prop h x y (map f weights)).
Proof.
  revert x. induction weights as [| weight weights IH]; intro x; simpl;
    constructor.
  - now exists x.
  - apply IH.
Qed.

Lemma place_rows_in_Forall2 (ar : arithmetic)
    (P : Row -> list Sketch -> Prop) prop h y rows :
  (forall row y', In row rows ->
     P row (place_in ar prop h 1 y' (widths_in ar prop (normalize row)))) ->
  Forall2 P rows
    (place_rows_in ar prop h y
       (map (fun row => widths_in ar prop (normalize row)) rows)).
Proof.
  revert y. induction rows as [| row rows IH]; intros y H; simpl.
  - constructor.
  - constructor.
    + apply H. now left.
    + apply IH. intros r y' Hin. apply H. now right.
Qed.

(** [layout] is the layout in exact arithmetic. *)
Lemma widths_from_in_exact prop row ratios :
  widths_from_in exact prop row ratios = widths_from prop row ratios.
Proof.
  induction ratios as [| ratio rest IH]; cbn [widths_from_in widths_from].
  - reflexivity.
  - now rewrite IH.
Qed.

Lemma for_width_in_exact prop h ws st :
  for_width_in exact prop h ws st = for_width prop h ws st.
Proof.
  revert st. induction ws as [| w ws IH]; intro st;
    cbn [for_width_in for_width].
  - reflexivity.
  - now rewrite IH.
Qed.

Lemma for_row_in_exact prop rows st :
  for_row_in exact prop rows st = for_row prop rows st.
Proof.
  revert st. induction rows as [| row rows IH]; intro st;
    cbn [for_row_in for_row].
  - reflexivity.
  - unfold row_widths_in, row_widths. rewrite widths_from_in_exact.
    destruct (widths_from prop (normalize row) (normalize row))
      as [ws w |]; [| reflexivity].
    cbn [bind]. change (truediv_in exact) with truediv.
    destruct (truediv _ _) as [h w' |]; [| reflexivity].
    cbn [bind]. rewrite for_width_in_exact. now rewrite IH.
Qed.

Lemma layout_in_exact (prop : Properties) :
  layout_in exact prop = layout prop.
Proof. unfold layout_in, layout. now rewrite for_row_in_exact. Qed.

Lemma positive_rows_summable (rows : list Row) :
  Forall positive_row rows -> Forall (summable_in exact) rows.
Proof.
  intro H. eapply Forall_impl; [| exact H].
  intros row Hrow. destruct (positive_row_sum row Hrow) as [E | Hs].
  - now left.
  - right. cbn [total exact]. lra.
Qed.

(** ** Drawer widths and row height *)

(** C1. In every arithmetic, whatever its roundings, a configuration that
    passes construction and has no row of weights summing to zero gets a
    layout, and the layout is the rows of [divisions] in order, each with
    one drawer per weight, an integer entry [n] counting as [n] weights of
    1.  Each drawer is a rectangle of width
    [round(weight / sum(weights) * (units_wide * 42 - (count + 1)), 2)]
    and of height [(units_long * 42 - (units_long + 1)) / units_long],
    the operations applied in this order.  The body [draw_buckets] cuts
    the drawers into measures [units_wide * 42] by [units_long * 42] by
    [units_high * 7 - 5.6], and the cut leaves a bottom of 2. *)
Theorem drawer_widths_in_any_arithmetic (ar : arithmetic) (prop : Properties) :
  post_init prop = Returns tt [] ->
  Forall (fun row =>
            let weights :=
              match row with
              | row_int n => repeat 1 (Z.to_nat n)
              | row_list ratios => ratios
              end in
            weights = [] \/ ~ total ar weights == 0)
         (divisions prop) ->
  let width_ := inject_Z (units_wide prop * 42) in
  let length_ := inject_Z (units_long prop * 42) in
  let height_ := inject_Z (units_high prop * 7) - 5.6 in
  let row_height :=
    divide ar (minus ar length_ (inject_Z (units_long prop + 1)))
              (inject_Z (units_long prop)) in
  (exists rows w,
     layout_in ar prop = Returns (List.concat rows) w /\
     Forall2
       (fun row drawers =>
          let weights :=
            match row with
            | row_int n => repeat 1 (Z.to_nat n)
            | row_list ratios => ratios
            end in
          Forall2
            (fun weight drawer =>
               let drawer_width :=
                 round_2 ar
                   (times ar
                      (divide ar weight (total ar weights))
                      (minus ar width_
                         (inject_Z (Z.of_nat (List.length weights) + 1)))) in
               exists dx dy,
                 drawer
                 = [S_rect drawer_width row_height "a" None;
                    S_vertices None None;
                    S_fillet 3;
                    S_edges;
                    S_moved (divide ar drawer_width 2,
                             divide ar (- row_height) 2, 0);
                    S_moved (dx, dy, 0)])
            weights drawers)
       (divisions prop) rows) /\
  (forall self sks w,
     layout prop = Returns sks w ->
     drawBuckets self prop
     = Returns
         {| calls :=
              calls self
              ++ [W_faces "<Z[0]";
                  W_workplane 0 "CenterOfBoundBox";
                  W_tag "base";
                  W_box width_ length_ height_ (true, true, false);
                  W_edges "|Z";
                  W_fillet 4;
                  W_faces ">Z";
                  W_workplane 0 "ProjectedOrigin";
                  W_placeSketch sks;
                  W_extrude (2 - height_) combine_cut];
            plane_zDir := None |}
         w).
Proof.
  intros Hpost Hrows width_ length_ height_ row_height.
  apply post_init_ok in Hpost. destruct Hpost as (_ & Hlong & _ & _).
  split.
  - destruct (layout_in_returns ar prop) as (w & E).
    { right. split; [lia | exact Hrows]. }
    eexists. exists w. split; [exact E |].
    apply place_rows_in_Forall2. intros row y _.
    change (match row with
            | row_int n => repeat 1 (Z.to_nat n)
            | row_list ratios => ratios
            end) with (normalize row).
    cbv zeta. unfold widths_in.
    eapply Forall2_impl; [| apply place_in_Forall2].
    intros weight d (x & ->). cbv beta. eexists. eexists. reflexivity.
  - intros self sks w E. unfold drawBuckets. rewrite E. cbn [bind ret].
    rewrite app_nil_r. f_equal.
    unfold extrude, placeSketch, workplane, faces, fillet, edges, box, tag,
      w_call, w_replane.
    cbn [calls plane_zDir]. f_equal. rewrite <- !app_assoc. reflexivity.
Qed.

Lemma drawer_widths_in_any_arithmetic_witness :
  exists rows w,
    layout p_generate = Returns (List.concat rows) w /\
    map (map (fun d => option_map (fun s => (Qred (fst s), Qred (snd s)))
                         (rect_size d))) rows
    = map (map (fun s : Q * Q => Some (Qred (fst s), Qred (snd s))))
        [[(41, 122 # 3); (82, 122 # 3); (41, 122 # 3)];
         [(54.67, 122 # 3); (54.67, 122 # 3); (54.67, 122 # 3)];
         [(16.5, 122 # 3); (148.5, 122 # 3)]].
Proof.
  destruct (drawer_widths_in_any_arithmetic exact p_generate eq_refl
              (positive_rows_summable _ (proj2 valid_p_generate)))
    as ((rows & w & E & HF) & _).
  exists rows, w. split.
  - rewrite <- layout_in_exact. exact E.
  - cbn [divisions p_generate mk] in HF.
    repeat match goal with
    | H : Forall2 _ (_ :: _) _ |- _ => inversion H; subst; clear H
    | H : Forall2 _ [] _ |- _ => inversion H; subst; clear H
    | H : Forall2 _ _ _ |- _ =>
        progress (cbv beta iota zeta in H;
                  change (Z.to_nat 3) with 3%nat in H; cbn [repeat] in H)
    | H : exists _, _ |- _ => destruct H
    end.
    subst. vm_compute. reflexivity.
Defined.

(** ** Division by zero in the layout *)

Lemma layout_in_returns_inv (ar : arithmetic) (prop : Properties) sks w :
  layout_in ar prop = Returns sks w ->
  sks = List.concat
          (place_rows_in ar prop (row_height_in ar prop) 1
             (map (fun row => widths_in ar prop (normalize row))
                  (divisions prop))).
Proof.
  intro E. destruct (layout_in_cases ar prop) as [H | [Hne H]].
  - destruct (layout_in_returns ar prop H) as (w' & E').
    rewrite E' in E. now injection E as <- _.
  - rewrite (layout_in_raises ar prop Hne H) in E. discriminate.
Qed.

(** X2. In every arithmetic, the layout raises [ZeroDivisionError]
    exactly when [divisions] is not empty and either [units_long] is 0 or
    some row has at least one weight and weights whose [sum] is zero, an
    integer entry [n] counting as [n] weights of 1.  A row without
    weights divides nothing. *)
Theorem zero_division_in_layout (ar : arithmetic) (prop : Properties) :
  layout_in ar prop = Raises ZeroDivisionError <->
  divisions prop <> [] /\
  (units_long prop = 0%Z \/
   Exists (fun row =>
             let weights :=
               match row with
               | row_int n => repeat 1 (Z.to_nat n)
               | row_list ratios => ratios
               end in
             weights <> [] /\ total ar weights == 0)
          (divisions prop)).
Proof.
  split.
  - intro E. destruct (layout_in_cases ar prop) as [H | H].
    + destruct (layout_in_returns ar prop H) as (w & E').
      rewrite E' in E. discriminate.
    + exact H.
  - intros [Hne H]. now apply layout_in_raises.
Qed.

Lemma zero_division_in_layout_witness :
  layout p_zero_sum = Raises ZeroDivisionError /\
  layout p_empty_row <> Raises ZeroDivisionError.
Proof.
  rewrite <- !layout_in_exact. split.
  - apply (zero_division_in_layout exact p_zero_sum).
    split; [discriminate |].
    right. left. split; [discriminate | reflexivity].
  - intro E. apply (zero_division_in_layout exact p_empty_row) in E.
    destruct E as [_ [E | E]]; [discriminate |].
    inversion E as [row rows [H _] | row rows H]; [now apply H | inversion H].
Defined.

(** ** The widths of an integer entry *)

Lemma place_in_length (ar : arithmetic) prop h x y ws :
  List.length (place_in ar prop h x y ws) = List.length ws.
Proof.
  revert x. induction ws as [| w ws IH]; intro x; simpl; [| rewrite IH];
    reflexivity.
Qed.

Lemma place_in_Forall_width (ar : arithmetic) prop h x y ws (wd : Q) :
  Forall (eq wd) ws ->
  Forall (fun d => rect_size d = Some (wd, h)) (place_in ar prop h x y ws).
Proof.
  intro H. revert x. induction H as [| w ws <- _ IH]; intro x; simpl;
    constructor.
  - reflexivity.
  - apply IH.
Qed.

(** X5. In every arithmetic, whenever the layout returns, an integer
    entry [n] of [divisions] gives [n] drawers (none when [n] is not
    positive), all of the one width
    [round(1 / sum([1] * n) * (units_wide * 42 - (n + 1)), 2)] and of
    the row height. *)
Theorem integer_row_equal_widths (ar : arithmetic) (prop : Properties)
    (sks : list Sketch) (w : list Warning) :
  layout_in ar prop = Returns sks w ->
  exists rows,
    sks = List.concat rows /\
    Forall2
      (fun row drawers =>
         forall n : Z,
           row = row_int n ->
           List.length drawers = Z.to_nat n /\
           Forall
             (fun drawer =>
                rect_size drawer
                = Some
                    (round_2 ar
                       (times ar
                          (divide ar 1 (total ar (repeat 1 (Z.to_nat n))))
                          (minus ar (inject_Z (units_wide prop * 42))
                                    (inject_Z (n + 1)))),
                     divide ar
                       (minus ar (inject_Z (units_long prop * 42))
                                 (inject_Z (units_long prop + 1)))
                       (inject_Z (units_long prop))))
             drawers)
      (divisions prop) rows.
Proof.
  intro E. apply layout_in_returns_inv in E. eexists. split; [exact E |].
  apply place_rows_in_Forall2. intros row y _ n ->.
  cbn [normalize]. unfold widths_in. split.
  - now rewrite place_in_length, length_map, repeat_length.
  - destruct (Z.to_nat n) as [| k] eqn:Ek; [constructor |].
    rewrite <- Ek.
    apply place_in_Forall_width.
    apply Forall_map, Forall_forall. intros x Hx.
    apply repeat_spec in Hx. subst x.
    unfold len. rewrite repeat_length, Z2Nat.id by lia. reflexivity.
Qed.

Lemma integer_row_equal_widths_witness :
  exists sks w rows,
    layout (mk 4 1 2 [row_int 3] false false false false) = Returns sks w /\
    sks = List.concat rows /\
    map (map (fun d => option_map (fun s => (Qred (fst s), Qred (snd s)))
                         (rect_size d))) rows
    = [[Some (54.67, 40); Some (54.67, 40); Some (54.67, 40)]].
Proof.
  set (p := mk 4 1 2 [row_int 3] false false false false).
  rewrite <- layout_in_exact.
  destruct (layout_in exact p) as [sks w | e] eqn:E;
    [| vm_compute in E; discriminate].
  destruct (integer_row_equal_widths exact p sks w E) as (rows & Hc & HF).
  exists sks, w, rows. split; [reflexivity |]. split; [exact Hc |].
  cbn [divisions p mk] in HF.
  inversion HF as [| row drawers rows0 rows' H3 Hnil]; subst.
  inversion Hnil; subst.
  destruct (H3 3%Z eq_refl) as (Hlen & Hall).
  destruct drawers as [| d1 [| d2 [| d3 [| d4 ds]]]]; try discriminate.
  inversion Hall as [| ? ? H1 Hall1]; subst.
  inversion Hall1 as [| ? ? H2 Hall2]; subst.
  inversion Hall2 as [| ? ? H4 _]; subst.
  cbn [map]. rewrite H1, H2, H4. vm_compute. reflexivity.
Defined.

(** ** The warnings of [make_box] *)

Lemma ledge_too_low_any (prop : Properties) :
  Qltb (height prop) (12 + 0.75 + 0.5) = (units_high prop <=? 2)%Z.
Proof.
  unfold height.
  destruct (Z.leb_spec (units_high prop) 2) as [H | H].
  - apply Qltb_lt.
    assert (inject_Z (units_high prop * 7) <= 14) as H14.
    { change 14 with (inject_Z 14). rewrite <- Zle_Qle. lia. }
    lra.
  - apply Qltb_ge.
    assert (21 <= inject_Z (units_high prop * 7)) as H21.
    { change 21 with (inject_Z 21). rewrite <- Zle_Qle. lia. }
    lra.
Qed.

Lemma drawBuckets_warnings (self : Workplane) (prop : Properties) b w :
  drawBuckets self prop = Returns b w ->
  exists sks, layout prop = Returns sks w.
Proof.
  unfold drawBuckets. destruct (layout prop) as [sks wl | e];
    cbn [bind ret]; [| discriminate].
  intro H. injection H as _ <-. exists sks. now rewrite app_nil_r.
Qed.

Lemma drawFingerScoops_warnings (self : Workplane) (prop : Properties) b w :
  drawFingerScoops self prop = Returns b w -> w = [].
Proof.
  unfold drawFingerScoops, truediv.
  destruct (draw_finger_scoop prop); cbn [negb];
    [| intro H; now injection H as _ <-].
  destruct (Qeq_bool _ _); cbn [bind ret raise app]; [discriminate |].
  intro H. now injection H as _ <-.
Qed.

Lemma drawLabelLedge_warnings (self : Workplane) (prop : Properties) b w :
  drawLabelLedge self prop = Returns b w ->
  w = if draw_label_ledge prop && (units_high prop <=? 2)%Z
      then [CannotDrawLabelLedgesWarning] else [].
Proof.
  unfold drawLabelLedge, truediv.
  destruct (draw_label_ledge prop); cbn [negb andb];
    [| intro H; now injection H as _ <-].
  destruct (Qeq_bool _ _); cbn [bind ret raise app]; [discriminate |].
  rewrite ledge_too_low_any.
  destruct (units_high prop <=? 2)%Z; cbn [bind ret warn app];
    intro H; now injection H as _ <-.
Qed.

Lemma drawMate_warnings (self : Workplane) (prop : Properties) b w :
  drawMate self prop = Returns b w -> w = [].
Proof.
  unfold drawMate, workplaneFromTagged.
  destruct (getTagged _ _); cbn [bind ret raise app]; [| discriminate].
  intro H. now injection H as _ <-.
Qed.

(** X9. Whenever [make_box] returns, on any configuration, the warnings
    its stages have issued are those of the layout, followed by
    [CannotDrawLabelLedgesWarning] exactly when [draw_label_ledge] is set
    and [units_high] is at most 2; no other stage warns. *)
Theorem make_box_warnings (prop : Properties) (box : Workplane)
    (w : list Warning) :
  make_box prop = Returns box w ->
  exists sks wl,
    layout prop = Returns sks wl /\
    w = wl ++ (if draw_label_ledge prop && (units_high prop <=? 2)%Z
               then [CannotDrawLabelLedgesWarning] else []).
Proof.
  unfold make_box. intro H.
  destruct (drawBuckets _ prop) as [b1 w1 |] eqn:E1; [| discriminate].
  cbn [bind] in H.
  destruct (drawFingerScoops _ prop) as [b3 w3 |] eqn:E3; [| discriminate].
  cbn [bind] in H.
  destruct (drawLabelLedge b3 prop) as [b4 w4 |] eqn:E4; [| discriminate].
  cbn [bind] in H.
  destruct (drawMate b4 prop) as [b5 w5 |] eqn:E5; [| discriminate].
  cbn [bind ret] in H. injection H as _ <-.
  apply drawBuckets_warnings in E1. destruct E1 as (sks & E1).
  apply drawFingerScoops_warnings in E3.
  apply drawLabelLedge_warnings in E4.
  apply drawMate_warnings in E5.
  exists sks, w1. split; [exact E1 |].
  rewrite E3, E5, <- E4. cbn [app]. now rewrite app_nil_r.
Qed.

Lemma make_box_warnings_witness :
  exists box sks,
    make_box p_ledge_low = Returns box [CannotDrawLabelLedgesWarning] /\
    layout p_ledge_low = Returns sks [].
Proof.
  assert (exists box w, make_box p_ledge_low = Returns box w)
    as (box & w & E) by (vm_compute; eauto).
  destruct (make_box_warnings p_ledge_low box w E) as (sks & wl & El & Ew).
  assert (wl = []) as ->.
  { vm_compute in El. now injection El as _ <-. }
  exists box, sks. split; [| exact El].
  rewrite E, Ew. reflexivity.
Defined.
